(** * Cosmic Clock: time-system conversions, circular orbits, ephemeris fallback

    A shallow embedding of the calculation core of [src/App.tsx].

    JavaScript numbers are embedded in three ways.
    - At the top level a number is a real number ([R]) and every operator
      is exact: [%] is the truncated remainder, [Math.floor] is [Zfloor],
      [Math.cos], [Math.sin], [Math.PI] are [cos], [sin], [PI].  Division
      by zero, NaN and the infinities have no counterpart; the statements
      that divide assume a non-zero divisor.  The theorems stated on
      this embedding are ranges, bounds with slack, order and equalities
      between results of the same computation; the lemmas named
      [_exact] are facts of exact arithmetic only.
    - In module [Rounded] a number is still a real, but [+], [*] and [/]
      are followed by a rounding, and [%] is exact as it is in IEEE-754.
      The wrap helper and the Mars clocks are embedded there, for the
      properties in which rounding matters.
    - In module [B64] a number is an IEEE-754 double and [*], [+], [/]
      round to nearest, ties to even, as the running program computes
      them.  The wrap helper, the clock formatter, the Mars clocks and
      Earth's mean solar time are embedded there and evaluated on
      concrete inputs.

    Integers the program only uses as integers (a [Date]'s time value, its
    UTC fields, floors used as counters) are in [Z]. *)

From Stdlib Require Import Reals Lra Lia ZArith Zfloor Machin.
From Stdlib Require Import QArith Qabs.
From Stdlib Require PrimFloat FloatOps SpecFloat.
From Stdlib Require Import Ascii String.
From stdpp Require Import gmap strings pretty.

Local Open Scope R_scope.

(** ** Utilities *)

(** Truncation toward zero: the integer quotient kept by JavaScript's [%]. *)
Definition Ztrunc (x : R) : Z :=
  if Rle_dec 0 x then Zfloor x else Zceil x.

(** [n % m] for a non-zero [m]: the remainder has the sign of the dividend. *)
Definition js_rem (n m : R) : R := n - m * IZR (Ztrunc (n / m)).

(** [const mod = (n, m) => ((n % m) + m) % m] *)
(* [mod] is reserved by the arithmetic notations, hence the underscore. *)
Definition mod_ (n m : R) : R := js_rem (js_rem n m + m) m.

Definition toRad (deg : R) : R := (deg * PI) / 180.
Definition toDeg (rad : R) : R := (rad * 180) / PI.

(** [Math.floor] *)
Definition floor (x : R) : R := IZR (Zfloor x).

(** ** Instants

    A [Date] is its time value: milliseconds since 1970-01-01T00:00:00Z.
    The UTC accessors are the ECMAScript ones (HourFromTime, MinFromTime,
    SecFromTime, msFromTime, YearFromTime), all integer arithmetic. *)

Record Date := mkDate { getTime : Z }.

Definition msPerDay : Z := 86400000.

Definition getUTCHours (d : Date) : Z := ((getTime d / 3600000) mod 24)%Z.
Definition getUTCMinutes (d : Date) : Z := ((getTime d / 60000) mod 60)%Z.
Definition getUTCSeconds (d : Date) : Z := ((getTime d / 1000) mod 60)%Z.
Definition getUTCMilliseconds (d : Date) : Z := (getTime d mod 1000)%Z.

(** Day number of the first day of year [y] (ECMAScript DayFromYear). *)
Definition DayFromYear (y : Z) : Z :=
  (365 * (y - 1970) + (y - 1969) / 4 - (y - 1901) / 100 + (y - 1601) / 400)%Z.

(** Proleptic Gregorian year of a day number, by the era decomposition
    (400-year eras of 146097 days starting on 1 March). *)
Definition YearFromDay (day : Z) : Z :=
  (let z := day + 719468 in
   let era := z / 146097 in
   let doe := z - era * 146097 in
   let yoe := (doe - doe / 1460 + doe / 36524 - doe / 146096) / 365 in
   let doy := doe - (365 * yoe + yoe / 4 - yoe / 100) in
   let mp := (5 * doy + 2) / 153 in
   if mp <? 10 then yoe + era * 400 else yoe + era * 400 + 1)%Z.

Definition getUTCFullYear (d : Date) : Z := YearFromDay (getTime d / msPerDay).

(** [Date.UTC(year, 0, 1)]: years 0..99 denote 1900..1999. *)
Definition Date_UTC_jan1 (year : Z) : Z :=
  (let yr := if (0 <=? year) && (year <=? 99) then 1900 + year else year in
   DayFromYear yr * msPerDay)%Z.

(** [Math.floor((d.getTime() - start) / 86400000) + 1]; both operands are
    integers, so the floor of the quotient is the integer quotient. *)
Definition dayOfYearUTC (d : Date) : Z :=
  (let start := Date_UTC_jan1 (getUTCFullYear d) in
   (getTime d - start) / msPerDay + 1)%Z.

(** ** Equation of time (minutes) *)

Definition equationOfTimeMinutes (date : Date) : R :=
  let N := IZR (dayOfYearUTC date) in
  let hours := IZR (getUTCHours date) + IZR (getUTCMinutes date) / 60
               + IZR (getUTCSeconds date) / 3600 in
  let gamma := (2 * PI / 365) * (N - 1 + (hours - 12) / 24) in
  229.18 * (0.000075 + 0.001868 * cos gamma - 0.032077 * sin gamma
            - 0.014615 * cos (2 * gamma) - 0.040849 * sin (2 * gamma)).

Definition julianDateUTC (date : Date) : R :=
  IZR (getTime date) / 86400000 + 2440587.5.

(** ** Earth *)

Definition earthMeanSolarTimeHours (dateUTC : Date) (lon : R) : R :=
  let utcHours := IZR (getUTCHours dateUTC) + IZR (getUTCMinutes dateUTC) / 60
                  + IZR (getUTCSeconds dateUTC) / 3600
                  + IZR (getUTCMilliseconds dateUTC) / 3600000 in
  mod_ (utcHours + lon / 15) 24.

Definition earthApparentSolarTimeHours (dateUTC : Date) (lon : R) : R :=
  mod_ (earthMeanSolarTimeHours dateUTC lon
        + equationOfTimeMinutes dateUTC / 60) 24.

(** ** Mars *)

Definition TAI_MINUS_UTC_SECONDS : R := 37.
Definition TT_MINUS_UTC_SECONDS : R := TAI_MINUS_UTC_SECONDS + 32.184.

Definition marsSolDate (jdUTC : R) : R :=
  let jdTT := jdUTC + TT_MINUS_UTC_SECONDS / 86400 in
  (jdTT - 2405522.0028779) / 1.0274912517.

Definition marsMTC_Hours (msd : R) : R := mod_ (js_rem msd 1 * 24) 24.

Definition marsLMST_Hours (msd lon : R) : R :=
  mod_ (marsMTC_Hours msd + lon / 15) 24.

(** ** Orbital (circular model) *)

Definition AU_KM : R := 149597870.7.
Definition J2000_TT : R := 2451545.0.

Record OrbitalBody := mkBody { name : string; a_AU : R; T_days : R }.

Definition getOrbitalBodies : list OrbitalBody :=
  [ mkBody "Mercury" 0.38709893 87.969;
    mkBody "Venus" 0.72333199 224.701;
    mkBody "Earth" 1.00000011 365.256;
    mkBody "Mars" 1.52366231 686.98;
    mkBody "Jupiter" 5.20336301 4332.589;
    mkBody "Saturn" 9.53707032 10759.22;
    mkBody "Uranus" 19.19126393 30688.5;
    mkBody "Neptune" 30.06896348 60182 ].

Definition meanLongitudeDeg (jdTT T : R) : R :=
  mod_ (((jdTT - J2000_TT) / T) * 360) 360.

Definition speedKmPerSec (a T : R) : R := (2 * PI * a * AU_KM) / T / 86400.

(** [type OrbitalRow = { name; a; theta; x; y; v; T }] *)
Record OrbitalRow := mkRow {
  row_name : string;
  row_a : R;
  row_theta : R;
  row_x : R;
  row_y : R;
  row_v : R;
  row_T : R
}.

Definition circularRow (jdTT : R) (b : OrbitalBody) : OrbitalRow :=
  let theta := meanLongitudeDeg jdTT (T_days b) in
  let v := speedKmPerSec (a_AU b) (T_days b) in
  let x := a_AU b * cos (toRad theta) in
  let y := a_AU b * sin (toRad theta) in
  mkRow (name b) (a_AU b) theta x y v (T_days b).

Definition circularRows (jdTT : R) : list OrbitalRow :=
  circularRow jdTT <$> getOrbitalBodies.

(** ** Major moons and the generic 24-hour dial *)

Definition MOONS : list (string * R) :=
  [ ("Phobos", 7.653); ("Deimos", 30.35); ("Io", 42.459);
    ("Europa", 85.228); ("Ganymede", 171.709); ("Callisto", 400.536);
    ("Titan", 382.68); ("Rhea", 108.45); ("Iapetus", 1903.7);
    ("Enceladus", 32.89); ("Titania", 208.95); ("Oberon", 323.1);
    ("Triton", 141.0) ].

(** The optional [epochJDTT] parameter defaults to [J2000_TT]. *)
Definition rotationCT_24hDial (jdTT periodHours : R) (epochJDTT : option R) : R :=
  let days := (jdTT - default J2000_TT epochJDTT) / (periodHours / 24) in
  mod_ (js_rem days 1 * 24) 24.

Definition rotationCount (jdTT periodHours : R) (epochJDTT : option R) : Z :=
  Zfloor ((jdTT - default J2000_TT epochJDTT) / (periodHours / 24)).

(** ** Clocks of the main component

    Inside [CosmicClock] every reading is derived from the state variable
    [now]; the generic dial and the day counters only see it through the
    Terrestrial-Time Julian Date [jdTT]. *)

Definition jdUTC (now : Date) : R := julianDateUTC now.
Definition msd (now : Date) : R := marsSolDate (jdUTC now).
Definition mtc (now : Date) : R := marsMTC_Hours (msd now).
Definition solNumber (now : Date) : Z := Zfloor (msd now).
Definition jdTT_of (now : Date) : R := jdUTC now + TT_MINUS_UTC_SECONDS / 86400.

Record RotationalBody := mkRot { solarDayHours : R; epochJDTT : R }.

Module Bodies.
Definition Moon : RotationalBody := mkRot (29.530588 * 24) 2451545.
Definition Mercury : RotationalBody := mkRot (175.938 * 24) 2451545.
Definition Venus : RotationalBody := mkRot (-116.75 * 24) 2451545.
Definition Jupiter : RotationalBody := mkRot 9.925 2451545.
End Bodies.

Section Component.

(** The component's own [jdTT]. *)
Variable jdTT : R.

(** [jdTTlocal ?? jdTT]: the optional third argument overrides the
    component's date. *)
Definition genericCT (hoursPerSolarDay epoch : R) (jdTTlocal : option R) : R :=
  let base := default jdTT jdTTlocal in
  let days := (base - epoch) / (hoursPerSolarDay / 24) in
  mod_ (js_rem days 1 * 24) 24.

Definition moonCT : R :=
  genericCT (solarDayHours Bodies.Moon) (epochJDTT Bodies.Moon) None.
Definition mercuryCT : R :=
  genericCT (solarDayHours Bodies.Mercury) (epochJDTT Bodies.Mercury) None.
Definition venusCT : R :=
  genericCT (solarDayHours Bodies.Venus) (epochJDTT Bodies.Venus) None.
Definition jupiterCT : R :=
  genericCT (solarDayHours Bodies.Jupiter) (epochJDTT Bodies.Jupiter) None.

Definition moonDayNum : Z :=
  Zfloor ((jdTT - epochJDTT Bodies.Moon) / (solarDayHours Bodies.Moon / 24)).
Definition mercuryDayNum : Z :=
  Zfloor ((jdTT - epochJDTT Bodies.Mercury)
          / (solarDayHours Bodies.Mercury / 24)).
Definition venusDayNum : Z :=
  Zfloor ((jdTT - epochJDTT Bodies.Venus) / (solarDayHours Bodies.Venus / 24)).
Definition jupiterDayNum : Z :=
  Zfloor ((jdTT - epochJDTT Bodies.Jupiter)
          / (solarDayHours Bodies.Jupiter / 24)).

Definition moonCTmap : list (string * R) :=
  (fun kv => (kv.1, rotationCT_24hDial jdTT kv.2 None)) <$> MOONS.
Definition moonDaymap : list (string * Z) :=
  (fun kv => (kv.1, rotationCount jdTT kv.2 None)) <$> MOONS.

End Component.

(** ** Clock formatting

    The three fields [h], [m], [s] that [formatHMS] computes before it
    prints them with [pad2]; the printing itself is in [B64]. *)

Definition formatHMS_h (hoursFloat : R) : R := mod_ (floor hoursFloat) 24.
Definition formatHMS_m (hoursFloat : R) : R := floor (mod_ (hoursFloat * 60) 60).
Definition formatHMS_s (hoursFloat : R) : R := floor (mod_ (hoursFloat * 3600) 60).

(** The value read back from a displayed [HH:MM:SS], [H + M/60 + S/3600]. *)
Definition hmsToHours (h m s : R) : R := h + m / 60 + s / 3600.

(** ** SPICE backend hooks *)

(** [Math.atan2(y, x)] and [Math.hypot(x, y)] on finite numbers. *)
Definition atan2 (y x : R) : R :=
  if Rlt_dec 0 x then atan (y / x)
  else if Rlt_dec x 0 then
    if Rle_dec 0 y then atan (y / x) + PI else atan (y / x) - PI
  else if Rlt_dec 0 y then PI / 2
  else if Rlt_dec y 0 then - (PI / 2)
  else 0.

Definition hypot (x y : R) : R := sqrt (x * x + y * y).

(** One element of the backend's JSON array (the fields the client reads). *)
Record SpiceRow := mkSpiceRow {
  sp_name : string;
  x_km : R;
  y_km : R;
  vx_km_s : R;
  vy_km_s : R
}.

(** The value stored per body name by [fetchSpiceStates]. *)
Record SpiceState := mkSpiceState {
  x_AU : R;
  y_AU : R;
  thetaDeg : R;
  v_kms : R
}.

(** What the network can answer. *)
Inductive JsonBody :=
| JsonRows (rows : list SpiceRow)
| JsonInvalid.

Record Response := mkResponse { res_ok : bool; res_status : Z; res_json : JsonBody }.

Inductive FetchSettled :=
| Rejected
| Resolved (res : Response).

Inductive FetchError :=
| NetworkError
| HttpError (status : Z)
| JsonError.

Definition isUnreserved (c : ascii) : bool :=
  let n := N_of_ascii c in
  ((48 <=? n) && (n <=? 57) || (65 <=? n) && (n <=? 90)
   || (97 <=? n) && (n <=? 122)
   || bool_decide (c ∈ ["-"; "_"; "."; "!"; "~"; "*"; "'"; "("; ")"]%char))%N.

Definition hexDigit (n : N) : ascii :=
  (if n <? 10 then ascii_of_N (48 + n) else ascii_of_N (55 + n))%N.

(** [encodeURIComponent] on a UTF-8 byte string. *)
Fixpoint encodeURIComponent (s : string) : string :=
  match s with
  | EmptyString => EmptyString
  | String c rest =>
      if isUnreserved c then String c (encodeURIComponent rest)
      else
        let n := N_of_ascii c in
        String "%" (String (hexDigit (n / 16))
                      (String (hexDigit (n mod 16)) (encodeURIComponent rest)))
  end.

Definition spiceUrl (epochISO : string) (bodies : list string) : string :=
  ("/api/spice/state?utc=" +:+ encodeURIComponent epochISO +:+ "&bodies="
   +:+ encodeURIComponent (String.concat "," bodies))%string.

Definition spiceState (row : SpiceRow) : SpiceState :=
  let x := x_km row / AU_KM in
  let y := y_km row / AU_KM in
  let theta := mod_ (toDeg (atan2 y x)) 360 in
  let v := hypot (vx_km_s row) (vy_km_s row) in
  mkSpiceState x y theta v.

(** The [for (const row of json)] loop: later rows overwrite earlier ones
    with the same name. *)
Definition spiceTable (json : list SpiceRow) : gmap string SpiceState :=
  fold_left (fun out row => <[sp_name row := spiceState row]> out) json ∅.

Section Fetch.

(** The network: what [fetch(url, { method: 'GET' })] settles to. *)
Variable fetch : string -> FetchSettled.

Definition fetchSpiceStates (epochISO : string) (bodies : list string)
  : FetchError + gmap string SpiceState :=
  match fetch (spiceUrl epochISO bodies) with
  | Rejected => inl NetworkError
  | Resolved res =>
      if negb (res_ok res) then inl (HttpError (res_status res))
      else match res_json res with
           | JsonInvalid => inl JsonError
           | JsonRows json => inr (spiceTable json)
           end
  end.

End Fetch.

(** ** Data source toggle and the rows builder *)

Inductive DataSource := model | spice.
Inductive SpiceStatus := idle | loading | ok | error.

(** The two pieces of component state the rows builder writes. *)
Record SourceState := mkSource { rows : list OrbitalRow; spiceStatus : SpiceStatus }.

Definition setRows (r : list OrbitalRow) (st : SourceState) : SourceState :=
  mkSource r (spiceStatus st).
Definition setSpiceStatus (s : SpiceStatus) (st : SourceState) : SourceState :=
  mkSource (rows st) s.

(** The callback mapped over the catalog in the [then] handler; [null]
    is [None]. *)
Definition mergedRow (map : gmap string SpiceState) (b : OrbitalBody)
  : option OrbitalRow :=
  match map !! name b with
  | Some m =>
      let v := speedKmPerSec (a_AU b) (T_days b) in
      Some (mkRow (name b) (a_AU b) (thetaDeg m) (x_AU m) (y_AU m) v (T_days b))
  | None => None
  end.

(** [getOrbitalBodies().map(...).filter(Boolean)] *)
Definition merged (map : gmap string SpiceState) : list OrbitalRow :=
  omap (mergedRow map) getOrbitalBodies.

Section RowsBuilder.

Variable fetch : string -> FetchSettled.
(** [new Date().toISOString()] at the time the effect runs. *)
Variable epochISO : string.
Variable dataSource : DataSource.
Variable visualJDTT : R.

Definition bodyNames : list string := name <$> getOrbitalBodies.

(** The [then] handler. *)
Definition onFulfilled (map : gmap string SpiceState) (st : SourceState)
  : SourceState :=
  let m := merged map in
  if (0 <? length m)%nat
  then setSpiceStatus ok (setRows m st)
  else setSpiceStatus error (setRows (circularRows visualJDTT) st).

(** The [catch] handler. *)
Definition onRejected (st : SourceState) : SourceState :=
  setSpiceStatus error (setRows (circularRows visualJDTT) st).

(** The synchronous part of the effect. *)
Definition effectStart (st : SourceState) : SourceState :=
  match dataSource with
  | spice => setSpiceStatus loading st
  | model => setSpiceStatus idle (setRows (circularRows visualJDTT) st)
  end.

(** The state once the effect and its promise have run to completion. *)
Definition rowsEffect (st : SourceState) : SourceState :=
  match dataSource with
  | spice =>
      let st1 := effectStart st in
      match fetchSpiceStates fetch epochISO bodyNames with
      | inr map => onFulfilled map st1
      | inl _ => onRejected st1
      end
  | model => effectStart st
  end.

End RowsBuilder.

(** ** Classifying responses *)

(** The body names a response carries. *)
Definition spiceNames (json : list SpiceRow) : list string := sp_name <$> json.

(** The response names none of the eight catalog bodies. *)
Definition mapsNoBody (json : list SpiceRow) : bool :=
  forallb (fun n => negb (bool_decide (n ∈ spiceNames json))) bodyNames.

(** The failures of the external source: the request is rejected, the
    status is not a success, the body is not the expected JSON, or no
    catalog body is mapped. *)
Definition externalFails (settled : FetchSettled) : bool :=
  match settled with
  | Rejected => true
  | Resolved res =>
      negb (res_ok res)
      || match res_json res with
         | JsonInvalid => true
         | JsonRows json => mapsNoBody json
         end
  end.

(** ** Self-check helpers *)

(** [bodies.find(b => b.name === n)] *)
Definition findBody (n : string) : option OrbitalBody :=
  List.find (fun b => bool_decide (name b = n)) getOrbitalBodies.

(** The self-check's speed of a catalog body. *)
Definition catalogSpeed (n : string) : option R :=
  (fun b => speedKmPerSec (a_AU b) (T_days b)) <$> findBody n.

(** ** The wrap helper, the clock formatter and the clocks on binary64
       numbers

    Here a number is an IEEE-754 double.  [*], [+] and [/] are the
    correctly rounded primitives; [%] and [Math.floor] are exact in
    IEEE-754 and are computed on the mantissa and exponent of their
    operands. *)

Module B64.

Import PrimFloat FloatOps SpecFloat.
Local Open Scope float_scope.

(** A finite number as [mant * 2^exp]. *)
Definition parts (x : float) : option (Z * Z) :=
  match Prim2SF x with
  | S754_zero _ => Some (0, 0)%Z
  | S754_finite s mant e => Some (if s then Zneg mant else Zpos mant, e)
  | _ => None
  end.

(** The double nearest to [mant * 2^exp] (the value itself when it is
    representable); a zero result takes the sign [szero]. *)
Definition ofParts (mant e : Z) (szero : bool) : float :=
  SF2Prim (binary_normalize prec emax mant e szero).

(** [x % y] *)
Definition js_rem (x y : float) : float :=
  match parts x, parts y with
  | Some (mx, ex), Some (my, ey) =>
      if (my =? 0)%Z then nan
      else
        let e := Z.min ex ey in
        let X := (mx * 2 ^ (ex - e))%Z in
        let Y := (my * 2 ^ (ey - e))%Z in
        ofParts (Z.rem X Y) e (get_sign x)
  | Some _, None => if is_infinity y then x else nan
  | None, _ => nan
  end.

(** [Math.floor] *)
Definition floor (x : float) : float :=
  match parts x with
  | Some (mant, e) =>
      if (0 <=? e)%Z then x else ofParts (mant / 2 ^ (- e)) 0 (get_sign x)
  | None => x
  end.

(** [const mod = (n, m) => ((n % m) + m) % m] *)
Definition mod_ (n m : float) : float := js_rem (js_rem n m + m) m.

(** The integer a number denotes, when it denotes one. *)
Definition toInteger (x : float) : option Z :=
  match parts x with
  | Some (mant, e) =>
      if (0 <=? e)%Z then Some (mant * 2 ^ e)%Z
      else if (mant mod 2 ^ (- e) =? 0)%Z then Some (mant / 2 ^ (- e))%Z
      else None
  | None => None
  end.

(** The exact rational value of a finite number. *)
Definition toQ (x : float) : option Q :=
  match parts x with
  | Some (mant, e) =>
      Some (if (0 <=? e)%Z then inject_Z (mant * 2 ^ e)
            else Qmake mant (Z.to_pos (2 ^ (- e))))
  | None => None
  end.

(** Template-literal conversion of a number.  The fields [formatHMS]
    prints are integers, or NaN when its argument is not finite; other
    numbers are not rendered here. *)
Definition numberToString (n : float) : string :=
  match toInteger n with
  | Some z => pretty z
  | None => "NaN"
  end.

Definition pad2 (n : float) : string :=
  if n <? 10 then ("0" +:+ numberToString n)%string else numberToString n.

Definition formatHMS_h (hoursFloat : float) : float := mod_ (floor hoursFloat) 24.
Definition formatHMS_m (hoursFloat : float) : float :=
  floor (mod_ (hoursFloat * 60) 60).
Definition formatHMS_s (hoursFloat : float) : float :=
  floor (mod_ (hoursFloat * 3600) 60).

Definition formatHMS (hoursFloat : float) : string :=
  (pad2 (formatHMS_h hoursFloat) +:+ ":" +:+ pad2 (formatHMS_m hoursFloat)
   +:+ ":" +:+ pad2 (formatHMS_s hoursFloat))%string.

Definition formatHMS24 (hoursFloat : float) : string :=
  formatHMS (mod_ hoursFloat 24).

(** [H + M/60 + S/3600] on the displayed integers, exactly. *)
Definition hmsToHours (hoursFloat : float) : option Q :=
  match toInteger (formatHMS_h hoursFloat),
        toInteger (formatHMS_m hoursFloat),
        toInteger (formatHMS_s hoursFloat) with
  | Some h, Some m, Some s =>
      Some (inject_Z h + inject_Z m / 60 + inject_Z s / 3600)%Q
  | _, _, _ => None
  end.

(** An integer field of a [Date] as a number. *)
Definition ofZ (z : Z) : float := ofParts z 0 false.

Definition earthMeanSolarTimeHours (dateUTC : Date) (lon : float) : float :=
  let utcHours := ofZ (getUTCHours dateUTC) + ofZ (getUTCMinutes dateUTC) / 60
                  + ofZ (getUTCSeconds dateUTC) / 3600
                  + ofZ (getUTCMilliseconds dateUTC) / 3600000 in
  mod_ (utcHours + lon / 15) 24.

Definition marsMTC_Hours (msd : float) : float := mod_ (js_rem msd 1 * 24) 24.

Definition marsLMST_Hours (msd lon : float) : float :=
  mod_ (marsMTC_Hours msd + lon / 15) 24.

(** The component's initial [earthLon], 77.1025. *)
Definition defaultEarthLon : float := 0x1.3468f5c28f5c3p+6.

End B64.

(** ** Local mean solar time of Mars and of the generic bodies

    The component adds the tile's longitude to each coordinated time. *)

Definition marsLMSTval (now : Date) (marsLon : R) : R :=
  marsLMST_Hours (msd now) marsLon.

Section ComponentLMST.

Variable jdTT : R.

Definition moonLMST (moonLon : R) : R := mod_ (moonCT jdTT + moonLon / 15) 24.
Definition mercuryLMST (mercuryLon : R) : R :=
  mod_ (mercuryCT jdTT + mercuryLon / 15) 24.
Definition venusLMST (venusLon : R) : R := mod_ (venusCT jdTT + venusLon / 15) 24.
Definition jupiterLMST (jupiterLon : R) : R :=
  mod_ (jupiterCT jdTT + jupiterLon / 15) 24.

End ComponentLMST.

(** ** Small widgets *)

(** [ProgressSpark]: the width of the bar, in percent. *)
Definition ProgressSpark_pct (value : R) : R := Rmax 0 (Rmin 1 value) * 100.

(** [MiniPlot]: the pixel position of the planet's dot in the 54-pixel box. *)
Module MiniPlot.
Definition size : R := 54.
Definition pad : R := 4.
Definition cx : R := size / 2.
Definition cy : R := size / 2.
Definition scale (xAU yAU : R) : R :=
  (size / 2 - pad) / Rmax 1 (Rmax (Rmax (Rabs xAU) (Rabs yAU)) 1).
Definition px (xAU yAU : R) : R := cx + xAU * scale xAU yAU.
Definition py (xAU yAU : R) : R := cy - yAU * scale xAU yAU.
End MiniPlot.

(** ** Interactive heliocentric map *)

Module HeliocentricMap.

(** The component state ([zoom], [offset]) and the variables of the
    interaction effect ([dragging], [lx], [ly]). *)
Record State := mkState {
  zoom : R;
  offset_x : R;
  offset_y : R;
  dragging : bool;
  lx : R;
  ly : R
}.

Definition initial : State := mkState 1 0 0 false 0 0.

Inductive Event :=
| Wheel (deltaY : R)
| MouseDown (clientX clientY : R)
| MouseMove (clientX clientY : R)
| MouseUp.

(** [onWheel], [onDown], [onMove], [onUp]. *)
Definition handle (s : State) (e : Event) : State :=
  match e with
  | Wheel deltaY =>
      let factor := if Rlt_dec 0 deltaY then 0.9 else 1.1 in
      mkState (Rmin 20 (Rmax 0.2 (zoom s * factor)))
              (offset_x s) (offset_y s) (dragging s) (lx s) (ly s)
  | MouseDown clientX clientY =>
      mkState (zoom s) (offset_x s) (offset_y s) true clientX clientY
  | MouseMove clientX clientY =>
      if dragging s then
        let dx := clientX - lx s in
        let dy := clientY - ly s in
        mkState (zoom s) (offset_x s + dx) (offset_y s + dy) true clientX clientY
      else s
  | MouseUp =>
      mkState (zoom s) (offset_x s) (offset_y s) false (lx s) (ly s)
  end.

Definition run (s : State) (events : list Event) : State :=
  fold_left handle events s.

(** The moves of a drag, as events. *)
Definition moves (points : list (R * R)) : list Event :=
  (fun p => MouseMove p.1 p.2) <$> points.

(** A mouse position given in whole pixels. *)
Definition pixel (p : Z * Z) : R * R := (IZR p.1, IZR p.2).

Definition size : R := 420.
Definition pad : R := 16.

(** [Math.max(...rows.map(r => r.a), 1)] *)
Definition maxA (rows : list OrbitalRow) : R := foldr Rmax 1 (row_a <$> rows).

Definition baseScale (rows : list OrbitalRow) : R :=
  (size / 2 - pad) / (maxA rows * 1.1).

Definition scale (rows : list OrbitalRow) (s : State) : R :=
  baseScale rows * zoom s.

Definition toPx (rows : list OrbitalRow) (s : State) (xAU : R) : R :=
  size / 2 + offset_x s + xAU * scale rows s.
Definition toPy (rows : list OrbitalRow) (s : State) (yAU : R) : R :=
  size / 2 + offset_y s - yAU * scale rows s.

End HeliocentricMap.

(** ** Self-check harness

    Each check is kept with its name and its verdict; the [got] and
    [expected] texts are formatted numbers and are left out. *)

Record SelfCheck := mkCheck { check_name : string; check_pass : bool }.

Definition Rleb (a b : R) : bool := if Rle_dec a b then true else false.
Definition Rltb (a b : R) : bool := if Rlt_dec a b then true else false.

(** The local helper [approx]. *)
Definition approx (checkName : string) (got expected tol : R) : SelfCheck :=
  mkCheck checkName (Rleb (Rabs (got - expected)) tol).

Definition DataSource_name (d : DataSource) : string :=
  match d with model => "model" | spice => "spice" end.

Definition SpiceStatus_eqb (a b : SpiceStatus) : bool :=
  match a, b with
  | idle, idle | loading, loading | ok, ok | error, error => true
  | _, _ => false
  end.

(** [runSelfChecks]: [None] stands for the exception raised if one of the
    three catalog look-ups came back [undefined]. *)
Definition runSelfChecks (now : Date) (earthLon : R)
    (dataSource : DataSource) (status : SpiceStatus) : option (list SelfCheck) :=
  earth ← findBody "Earth";
  mercury ← findBody "Mercury";
  neptune ← findBody "Neptune";
  let vE := speedKmPerSec (a_AU earth) (T_days earth) in
  let vM := speedKmPerSec (a_AU mercury) (T_days mercury) in
  let vN := speedKmPerSec (a_AU neptune) (T_days neptune) in
  let degPerDay := 360 / T_days earth in
  let mtcNow := marsMTC_Hours (msd now) in
  let lmst0 := marsLMST_Hours (msd now) 0 in
  let lmstE := earthMeanSolarTimeHours now earthLon in
  let lastE := earthApparentSolarTimeHours now earthLon in
  let eotH := equationOfTimeMinutes now / 60 in
  let diff := mod_ (lastE - lmstE - eotH) 24 in
  let err := Rmin diff (24 - diff) in
  let ang := mod_ (toDeg (atan2 1 0)) 360 in
  Some [ approx "Earth speed" vE 29.78 0.5;
         approx "Mercury speed" vM 47.36 1.0;
         approx "Neptune speed" vN 5.43 0.2;
         approx "Earth deg/day" degPerDay 0.9856 0.02;
         approx "Mars: |MTC-LMST@0°E|" (Rabs (mtcNow - lmst0)) 0 0.005;
         mkCheck "Earth: LAST-LMST≈EoT/60" (Rltb err 0.01);
         mkCheck "atan2(1,0) deg = 90" (Rltb (Rabs (ang - 90)) 1e-9);
         mkCheck ("Data source: " +:+ DataSource_name dataSource)
           (match dataSource with
            | model => true
            | spice => negb (SpiceStatus_eqb status error)
            end) ].

(** ** Devices for checking the calendar over one 400-year era *)

(** [YearFromDay] within an era: the year of day [doe] of the era. *)
Definition yearOfEraDay (doe : Z) : Z :=
  (let yoe := (doe - doe / 1460 + doe / 36524 - doe / 146096) / 365 in
   let doy := doe - (365 * yoe + yoe / 4 - yoe / 100) in
   let mp := (5 * doy + 2) / 153 in
   if mp <? 10 then yoe else yoe + 1)%Z.

(** Day [doe] of the era falls inside the year computed for it. *)
Definition eraDayOk (doe : Z) : bool :=
  ((DayFromYear (yearOfEraDay doe) <=? doe - 719468)
   && (doe - 719468 <? DayFromYear (yearOfEraDay doe + 1)))%Z.

Definition checkStep (f : Z -> bool) (p : Z * bool) : Z * bool :=
  ((fst p + 1)%Z, andb (snd p) (f (fst p))).

(** [f] holds on [0, 1, ..., n - 1]. *)
Definition allBelow (f : Z -> bool) (n : N) : bool :=
  snd (N.iter n (checkStep f) (0%Z, true)).

(** ** Doubles as rounded reals

    Between the exact reals and the evaluation on binary64 values: the
    operators that round in IEEE-754 ([+], [*], [/]) are followed by a
    rounding [rnd], while [%] stays exact, as it is in IEEE-754.  [rnd]
    stands for rounding to the nearest double where the result is finite;
    a sum that overflows to [Infinity] has no counterpart here.  What the
    proofs use of [rnd] is gathered in [Rounding]. *)

Module Rounded.

Section WithRounding.

Variable rnd : R -> R.

(** [const mod = (n, m) => ((n % m) + m) % m] *)
Definition mod_ (n m : R) : R := js_rem (rnd (js_rem n m + m)) m.

Definition marsMTC_Hours (msd : R) : R := mod_ (rnd (js_rem msd 1 * 24)) 24.

Definition marsLMST_Hours (msd lon : R) : R :=
  mod_ (rnd (marsMTC_Hours msd + rnd (lon / 15))) 24.

End WithRounding.

End Rounded.

(** Properties of rounding to nearest that hold of binary64 as long as no
    result overflows: it is monotone and idempotent, integers up to 2^53
    are representable, and the remainder of two representable numbers is
    representable. *)
Record Rounding (rnd : R -> R) : Prop := mkRounding {
  rnd_monotone : forall x y, x <= y -> rnd x <= rnd y;
  rnd_idempotent : forall x, rnd (rnd x) = rnd x;
  rnd_integer : forall k : Z, (Z.abs k <= 2 ^ 53)%Z -> rnd (IZR k) = IZR k;
  rnd_remainder :
    forall x m, rnd x = x -> rnd m = m -> rnd (js_rem x m) = js_rem x m
}.

(** A rounding that really rounds: to the nearest multiple of 2^-48 (the
    spacing of the doubles between 16 and 32), halves upward. *)
Definition toGrid (x : R) : R :=
  IZR (Zfloor (x * 281474976710656 + / 2)) / 281474976710656.

(** ** Example inputs *)

(** Networks used as examples. *)
Definition fetchOffline : string -> FetchSettled := fun _ => Rejected.
Definition fetchUnavailable : string -> FetchSettled :=
  fun _ => Resolved (mkResponse false 503 JsonInvalid).
Definition fetchOnlyPluto : string -> FetchSettled :=
  fun _ => Resolved (mkResponse true 200 (JsonRows [mkSpiceRow "Pluto" 1 2 3 4])).

Definition initialSource (visualJDTT : R) : SourceState :=
  mkSource (circularRows visualJDTT) idle.

(** A backend that knows three of the eight bodies (and one stranger). *)
Definition threeBodies : list SpiceRow :=
  [ mkSpiceRow "Mars" 1 2 3 4; mkSpiceRow "Ceres" 5 6 7 8;
    mkSpiceRow "Venus" 9 10 11 12; mkSpiceRow "Earth" 13 14 15 16 ].
Definition fetchThree : string -> FetchSettled :=
  fun _ => Resolved (mkResponse true 200 (JsonRows threeBodies)).

(** A backend that reports the Earth at rest, one astronomical unit away
    on the x axis. *)
Definition earthAtRest : SpiceRow := mkSpiceRow "Earth" 149597870.7 0 0 0.
Definition fetchEarthAtRest : string -> FetchSettled :=
  fun _ => Resolved (mkResponse true 200 (JsonRows [earthAtRest])).

(** * Properties *)

(** ** Facts about truncation and remainder *)

Section Remainder.

Variable m : R.
Hypothesis m_pos : 0 < m.

Lemma quotient_scaled (n : R) (k : Z) :
  IZR k <= n / m < IZR k + 1 <-> m * IZR k <= n < m * IZR k + m.
Proof using m_pos.
  assert (E : n = (n / m) * m) by (field; lra).
  split; intros [H1 H2].
  - split.
    + rewrite E at 1. rewrite Rmult_comm. apply Rmult_le_compat_r; lra.
    + rewrite E at 1.
      replace (m * IZR k + m) with ((IZR k + 1) * m) by ring.
      apply Rmult_lt_compat_r; lra.
  - split.
    + apply Rmult_le_reg_r with m; [lra|]. rewrite <- E. lra.
    + apply Rmult_lt_reg_r with m; [lra|]. rewrite <- E. lra.
Qed.

Lemma floor_quotient_bound (n : R) :
  m * IZR (Zfloor (n / m)) <= n < m * IZR (Zfloor (n / m)) + m.
Proof using m_pos. apply quotient_scaled, Zfloor_bound. Qed.

Lemma floor_quotient_unique (n : R) (k : Z) :
  m * IZR k <= n < m * IZR k + m -> Zfloor (n / m) = k.
Proof using m_pos. intros H. apply Zfloor_eq, quotient_scaled, H. Qed.

Lemma quotient_nonneg (n : R) : 0 <= n -> 0 <= n / m.
Proof using m_pos.
  intros [Hn| <-]; [left; apply Rdiv_lt_0_compat; lra|].
  unfold Rdiv. rewrite Rmult_0_l. lra.
Qed.

(** A non-negative dividend leaves a remainder in [[0, m)]. *)
Lemma js_rem_nonneg (n : R) : 0 <= n -> 0 <= js_rem n m < m.
Proof using m_pos.
  intros Hn. unfold js_rem, Ztrunc.
  destruct (Rle_dec 0 (n / m)) as [_|Hq].
  - pose proof (floor_quotient_bound n). lra.
  - exfalso. apply Hq, quotient_nonneg, Hn.
Qed.

(** A negative dividend leaves a remainder in [(-m, 0]]. *)
Lemma js_rem_neg (n : R) : n < 0 -> - m < js_rem n m <= 0.
Proof using m_pos.
  intros Hn. unfold js_rem, Ztrunc.
  destruct (Rle_dec 0 (n / m)) as [Hq|_].
  - exfalso. pose proof (Rdiv_neg_pos n m Hn m_pos). lra.
  - pose proof (Zceil_bound (n / m)) as [B1 B2].
    assert (E : n = (n / m) * m) by (field; lra).
    set (q := n / m) in *. set (c := IZR (Zceil q)) in *.
    rewrite E. split; nra.
Qed.

(** The wrap helper is the floored modulo. *)
Lemma mod_floored (n : R) : mod_ n m = n - m * IZR (Zfloor (n / m)).
Proof using m_pos.
  unfold mod_.
  set (a := js_rem n m + m).
  assert (Ha : 0 <= a).
  { unfold a. destruct (Rle_dec 0 n) as [Hn|Hn].
    - pose proof (js_rem_nonneg n Hn). lra.
    - assert (Hn' : n < 0) by lra. pose proof (js_rem_neg n Hn'). lra. }
  pose proof (js_rem_nonneg a Ha) as Hr.
  assert (Hk : js_rem a m
               = n - m * IZR (Ztrunc (n / m) - 1 + Ztrunc (a / m))).
  { unfold js_rem at 1. unfold a at 1. unfold js_rem.
    rewrite plus_IZR, minus_IZR. ring. }
  rewrite Hk in Hr |- *.
  do 3 f_equal. symmetry. apply floor_quotient_unique. lra.
Qed.

Lemma mod_range (n : R) : 0 <= mod_ n m < m.
Proof using m_pos.
  rewrite mod_floored. pose proof (floor_quotient_bound n). lra.
Qed.

Lemma mod_small (n : R) : 0 <= n < m -> mod_ n m = n.
Proof using m_pos.
  intros H. rewrite mod_floored.
  rewrite (floor_quotient_unique n 0) by lra. lra.
Qed.

Lemma mod_shift (n : R) (k : Z) : mod_ (n + m * IZR k) m = mod_ n m.
Proof using m_pos.
  rewrite !mod_floored.
  replace ((n + m * IZR k) / m) with (n / m + IZR k) by (field; lra).
  rewrite Zfloor_addz, plus_IZR. ring.
Qed.

End Remainder.


(** The value itself at a negative input: [mod(-1, 24) = 23]. *)
Example mod_minus_one : mod_ (-1) 24 = 23.
Proof.
  rewrite mod_floored by lra.
  rewrite (floor_quotient_unique 24 ltac:(lra) (-1) (-1)) by lra. lra.
Qed.

(** ** Day counters *)

Lemma floor_quotient_monotone (p x y : R) :
  0 < p -> x <= y -> (Zfloor (x / p) <= Zfloor (y / p))%Z.
Proof.
  intros Hp Hxy. apply Zfloor_le.
  unfold Rdiv. apply Rmult_le_compat_r; [|exact Hxy].
  left. apply Rinv_0_lt_compat, Hp.
Qed.

Lemma floor_quotient_antitone (p x y : R) :
  p < 0 -> x <= y -> (Zfloor (y / p) <= Zfloor (x / p))%Z.
Proof.
  intros Hp Hxy. apply Zfloor_le.
  replace (y / p) with ((- y) / (- p)) by (field; lra).
  replace (x / p) with ((- x) / (- p)) by (field; lra).
  unfold Rdiv. apply Rmult_le_compat_r; [|lra].
  left. apply Rinv_0_lt_compat. lra.
Qed.

(** The moons' counter follows the sign of the period in the same way. *)
Lemma rotationCount_monotone (periodHours : R) (epoch : option R) (jd1 jd2 : R) :
  jd1 <= jd2 ->
  (0 < periodHours ->
   (rotationCount jd1 periodHours epoch <= rotationCount jd2 periodHours epoch)%Z)
  /\ (periodHours < 0 ->
      (rotationCount jd2 periodHours epoch <= rotationCount jd1 periodHours epoch)%Z).
Proof.
  intros H. unfold rotationCount. split; intros Hp.
  - apply floor_quotient_monotone; lra.
  - apply floor_quotient_antitone; lra.
Qed.

(** C5. As the Terrestrial-Time Julian Date advances, Venus's day number
    (negative solar-day period) never increases and Jupiter's (positive
    rotation period) never decreases. *)
Theorem dayNum_retrograde_sign (jdTT1 jdTT2 : R) :
  jdTT1 <= jdTT2 ->
  (venusDayNum jdTT2 <= venusDayNum jdTT1)%Z
  /\ (jupiterDayNum jdTT1 <= jupiterDayNum jdTT2)%Z.
Proof.
  intros H. unfold venusDayNum, jupiterDayNum. simpl. split.
  - apply floor_quotient_antitone; lra.
  - apply floor_quotient_monotone; lra.
Qed.

Lemma dayNum_retrograde_sign_witness :
  2451545 <= 2451545 + 200
  /\ (venusDayNum (2451545 + 200) <= venusDayNum 2451545)%Z
  /\ (jupiterDayNum 2451545 <= jupiterDayNum (2451545 + 200))%Z.
Proof.
  split; [lra | apply (dayNum_retrograde_sign 2451545 (2451545 + 200)); lra].
Defined.

(** Two hundred days after the epoch Venus has counted down to day -2. *)
Example venusDayNum_after_200_days : venusDayNum (2451545 + 200) = (-2)%Z.
Proof.
  unfold venusDayNum. simpl. apply Zfloor_eq. simpl. lra.
Qed.

(** ** Mars *)

Lemma marsMTC_range (msd : R) : 0 <= marsMTC_Hours msd < 24.
Proof. apply mod_range. lra. Qed.

(** ** Earth *)


(** ** The generic dial *)

(** With the optional arguments left out on either side the two dials
    still agree: the component's date and [J2000_TT] are the defaults. *)
Lemma genericCT_rotationCT_defaults
    (componentJDTT periodHours : R) (jdTTlocal epoch : option R) :
  genericCT componentJDTT periodHours (default J2000_TT epoch) jdTTlocal
  = rotationCT_24hDial (default componentJDTT jdTTlocal) periodHours epoch.
Proof. reflexivity. Qed.

(** C10. The component's [genericCT] and the standalone
    [rotationCT_24hDial] used for the moons compute the same reading from
    the same period, epoch and date. *)
Theorem genericCT_rotationCT_agree (componentJDTT jdTT periodHours epoch : R) :
  periodHours <> 0 ->
  genericCT componentJDTT periodHours epoch (Some jdTT)
  = rotationCT_24hDial jdTT periodHours (Some epoch).
Proof. intros _. reflexivity. Qed.

Lemma genericCT_rotationCT_agree_witness :
  42.459 <> 0
  /\ genericCT 2460000 42.459 2451545 (Some 2460981)
     = rotationCT_24hDial 2460981 42.459 (Some 2451545).
Proof.
  split; [lra | apply (genericCT_rotationCT_agree 2460000 2460981 42.459 2451545); lra].
Defined.

(** ** Orbital speeds *)

(** Machin-type bounds on pi, from [pi/4 = 2 atan(1/3) + atan(1/7)]. *)
Lemma PI_bounds : 3.13 < PI < 3.15.
Proof.
  pose proof (PI_2_3_7_ineq 0) as [Hlo _].
  pose proof (PI_2_3_7_ineq 1) as [_ Hhi].
  unfold sum_f_R0, tg_alt, PI_2_3_7_tg, Ratan_seq in Hlo, Hhi.
  simpl in Hlo, Hhi.
  split; lra.
Qed.

(** C9. The mean circular speeds of the catalog: Earth within
    [[29.28, 30.28]] km/s, Mercury within [[46.36, 48.36]], Neptune within
    [[5.23, 5.63]]. *)
Theorem orbital_speed_bounds :
  (exists vE, catalogSpeed "Earth" = Some vE /\ 29.28 <= vE <= 30.28)
  /\ (exists vM, catalogSpeed "Mercury" = Some vM /\ 46.36 <= vM <= 48.36)
  /\ (exists vN, catalogSpeed "Neptune" = Some vN /\ 5.23 <= vN <= 5.63).
Proof.
  pose proof PI_bounds as [Hlo Hhi].
  repeat split; eexists; (split; [reflexivity|]);
    unfold speedKmPerSec, AU_KM; simpl; lra.
Qed.

(** ** Clock formatting *)

Lemma floor_minus_integer (x : R) (k : Z) :
  Zfloor (x - IZR k) = (Zfloor x - k)%Z.
Proof.
  replace (x - IZR k) with (x + IZR (- k)) by (rewrite opp_IZR; ring).
  rewrite Zfloor_addz. lia.
Qed.

(** In exact arithmetic the three fields are the digits of the whole
    number of seconds. *)
Lemma formatHMS_fields_exact (h : R) :
  0 <= h < 24 ->
  formatHMS_h h = IZR (Zfloor h)
  /\ formatHMS_m h = IZR (Zfloor (h * 60)) - 60 * IZR (Zfloor h)
  /\ formatHMS_s h = IZR (Zfloor (h * 3600)) - 60 * IZR (Zfloor (h * 60)).
Proof.
  intros Hh. unfold formatHMS_h, formatHMS_m, formatHMS_s, floor.
  repeat split.
  - apply mod_small; [lra|].
    pose proof (Zfloor_bound h) as B.
    assert (0 <= Zfloor h)%Z by (apply Zfloor_lub; simpl; lra).
    split; [apply IZR_le; assumption | lra].
  - rewrite mod_floored by lra.
    replace (h * 60 / 60) with h by field.
    rewrite <- mult_IZR, floor_minus_integer, minus_IZR, mult_IZR. reflexivity.
  - rewrite mod_floored by lra.
    replace (h * 3600 / 60) with (h * 60) by field.
    rewrite <- mult_IZR, floor_minus_integer, minus_IZR, mult_IZR. reflexivity.
Qed.

(** With exact products and sums, reading the displayed [HH:MM:SS] back
    loses less than one second. *)
Lemma formatHMS_roundtrip_exact (h : R) :
  0 <= h < 24 ->
  Rabs (hmsToHours (formatHMS_h h) (formatHMS_m h) (formatHMS_s h) - h)
  < 1 / 3600.
Proof.
  intros Hh.
  destruct (formatHMS_fields_exact h Hh) as (-> & -> & ->).
  unfold hmsToHours.
  pose proof (Zfloor_bound (h * 3600)) as B.
  apply Rabs_def1; lra.
Qed.

Module B64Facts.

Import PrimFloat.
Import B64.
Local Open Scope float_scope.

Example js_rem_examples :
  (js_rem (-7.5) 2, js_rem 7.5 (-2), js_rem 0x1p+996 7,
   js_rem 0x1.3333333333333p-2 0x1.999999999999ap-4)
  = (-1.5, 1.5, 1, 0x1.9999999999998p-4)%float.
Proof. vm_compute. reflexivity. Qed.

Example floor_examples :
  (floor (-0.5), floor 2.75, floor (-2.75), floor 0x1p+996)
  = (-1, 2, -3, 0x1p+996)%float.
Proof. vm_compute. reflexivity. Qed.

Example formatHMS_noon_and_a_half : formatHMS 12.5 = "12:30:00"%string.
Proof. vm_compute. reflexivity. Qed.

Example formatHMS24_wraps : formatHMS24 (-1.25) = "22:45:00"%string.
Proof. vm_compute. reflexivity. Qed.

End B64Facts.

(** ** The table built by [fetchSpiceStates] *)

Example spiceUrl_example :
  spiceUrl "2026-11-01T06:41:00.000Z" ["Mercury"; "Venus"]
  = "/api/spice/state?utc=2026-11-01T06%3A41%3A00.000Z&bodies=Mercury%2CVenus"%string.
Proof. reflexivity. Qed.

Lemma spiceTable_snoc (json : list SpiceRow) (row : SpiceRow) :
  spiceTable (json ++ [row]) = <[sp_name row := spiceState row]> (spiceTable json).
Proof. unfold spiceTable. rewrite fold_left_app. reflexivity. Qed.

(** An entry of the table comes from the last row carrying its name. *)
Lemma spiceTable_lookup_Some (json : list SpiceRow) (n : string) (s : SpiceState) :
  spiceTable json !! n = Some s ->
  exists pre row post,
    json = pre ++ row :: post /\ sp_name row = n
    /\ (n ∉ spiceNames post) /\ s = spiceState row.
Proof.
  induction json as [|row json IH] using rev_ind; intros H.
  - unfold spiceTable in H. simpl in H. rewrite lookup_empty in H. discriminate.
  - rewrite spiceTable_snoc in H.
    apply lookup_insert_Some in H as [[E1 E2]|[Hne H]].
    + exists json, row, []. repeat split; auto. apply not_elem_of_nil.
    + destruct (IH H) as (pre & r & post & -> & Hn & Hpost & ->).
      exists pre, r, (post ++ [row]). repeat split; auto.
      * rewrite <- app_assoc. reflexivity.
      * unfold spiceNames. rewrite fmap_app. apply not_elem_of_app. split; [exact Hpost|].
        simpl. intros Hin. apply list_elem_of_singleton in Hin. congruence.
Qed.

Lemma spiceTable_lookup_None (json : list SpiceRow) (n : string) :
  spiceTable json !! n = None <-> n ∉ spiceNames json.
Proof.
  induction json as [|row json IH] using rev_ind.
  - unfold spiceTable. simpl. rewrite lookup_empty. split; [intros _; apply not_elem_of_nil | auto].
  - rewrite spiceTable_snoc, lookup_insert_None, IH.
    unfold spiceNames. rewrite fmap_app, not_elem_of_app. simpl.
    rewrite list_elem_of_singleton. split; intros [H1 H2]; split; auto.
Qed.

Lemma spiceTable_is_Some (json : list SpiceRow) (n : string) :
  is_Some (spiceTable json !! n) <-> n ∈ spiceNames json.
Proof.
  rewrite <- not_eq_None_Some, spiceTable_lookup_None.
  destruct (decide (n ∈ spiceNames json)); split; intros; auto; contradiction.
Qed.

(** ** The merged rows *)

Lemma merged_names_gen (map : gmap string SpiceState) (l : list OrbitalBody) :
  row_name <$> omap (mergedRow map) l
  = filter (fun n => is_Some (map !! n)) (name <$> l).
Proof.
  induction l as [|b l IH]; [reflexivity|].
  simpl. unfold mergedRow at 1.
  destruct (map !! name b) as [s|] eqn:E.
  - rewrite filter_cons_True by (rewrite E; eauto). simpl. f_equal. exact IH.
  - rewrite filter_cons_False by (rewrite E; intros [? ?]; discriminate). exact IH.
Qed.

Lemma filter_ext_iff {A} (P Q : A -> Prop)
    `{!forall x, Decision (P x)} `{!forall x, Decision (Q x)} (l : list A) :
  (forall x, P x <-> Q x) -> filter P l = filter Q l.
Proof.
  intros Hpq. induction l as [|x l IH]; [reflexivity|].
  destruct (decide (P x)) as [Hp|Hp].
  - rewrite !filter_cons_True by (auto; apply Hpq; auto). f_equal. exact IH.
  - rewrite !filter_cons_False by (auto; rewrite <- Hpq; auto). exact IH.
Qed.

(** The names of the merged rows are the catalog names present in the
    response, in catalog order. *)
Lemma merged_names (json : list SpiceRow) :
  row_name <$> merged (spiceTable json)
  = filter (fun n => n ∈ spiceNames json) (name <$> getOrbitalBodies).
Proof.
  unfold merged. rewrite merged_names_gen.
  apply filter_ext_iff. intros n. apply spiceTable_is_Some.
Qed.

Lemma merged_elem (map : gmap string SpiceState) (r : OrbitalRow) :
  r ∈ merged map ->
  exists b m, b ∈ getOrbitalBodies /\ map !! name b = Some m
    /\ r = mkRow (name b) (a_AU b) (thetaDeg m) (x_AU m) (y_AU m)
                 (speedKmPerSec (a_AU b) (T_days b)) (T_days b).
Proof.
  unfold merged. intros H. apply list_elem_of_omap in H as (b & Hb & Hr).
  unfold mergedRow in Hr. destruct (map !! name b) as [m|] eqn:E; [|discriminate].
  exists b, m. repeat split; auto. congruence.
Qed.

Lemma length_pos_nonempty {A} (l : list A) : (0 <? length l)%nat = true <-> l <> [].
Proof. destruct l; simpl; split; intros; auto; congruence. Qed.

Lemma circularRows_nonempty (jdTT : R) : circularRows jdTT <> [].
Proof. unfold circularRows. simpl. discriminate. Qed.

(** ** Fallback to the circular model *)

Lemma filter_none {A} (P : A -> Prop) `{!forall x, Decision (P x)} (l : list A) :
  (forall x, x ∈ l -> ~ P x) -> filter P l = [].
Proof.
  induction l as [|x l IH]; intros Hl; [reflexivity|].
  rewrite filter_cons_False by (apply Hl; left).
  apply IH. intros y Hy. apply Hl. right. exact Hy.
Qed.

Lemma mapsNoBody_merged (json : list SpiceRow) :
  mapsNoBody json = true -> merged (spiceTable json) = [].
Proof.
  intros H. apply (fmap_nil_inv row_name). rewrite merged_names.
  apply filter_none. intros n Hn Hin.
  unfold mapsNoBody in H. rewrite forallb_forall in H.
  specialize (H n). rewrite <- list_elem_of_In in H. specialize (H Hn).
  apply negb_true_iff, bool_decide_eq_false in H. contradiction.
Qed.

(** C1. With the external source selected, a failed fetch (rejected
    request, non-success status, unusable body, or a response mapping no
    catalog body) leaves a non-empty row table equal to the circular
    model's rows for the same date, and the status [error]. *)
Theorem external_failure_falls_back
    (fetch : string -> FetchSettled) (epochISO : string)
    (visualJDTT : R) (st : SourceState) :
  externalFails (fetch (spiceUrl epochISO bodyNames)) = true ->
  let st' := rowsEffect fetch epochISO spice visualJDTT st in
  rows st' = circularRows visualJDTT
  /\ rows st' <> []
  /\ spiceStatus st' = error.
Proof.
  intros Hfail st'.
  assert (E : rows st' = circularRows visualJDTT /\ spiceStatus st' = error).
  { subst st'. unfold rowsEffect, fetchSpiceStates.
    destruct (fetch (spiceUrl epochISO bodyNames)) as [|res]; [split; reflexivity|].
    simpl in Hfail. destruct (res_ok res); simpl in *; [|split; reflexivity].
    destruct (res_json res) as [json|]; [|split; reflexivity].
    unfold onFulfilled. rewrite (mapsNoBody_merged json Hfail). split; reflexivity. }
  destruct E as [E1 E2]. split; [exact E1|].
  split; [rewrite E1; apply circularRows_nonempty | exact E2].
Qed.

Lemma external_failure_falls_back_witness :
  externalFails (fetchOnlyPluto (spiceUrl "2026-11-01T06:41:00.000Z" bodyNames)) = true
  /\ let st' := rowsEffect fetchOnlyPluto "2026-11-01T06:41:00.000Z" spice 2461346
                  (initialSource 2461000) in
     rows st' = circularRows 2461346 /\ rows st' <> [] /\ spiceStatus st' = error.
Proof.
  split; [reflexivity|].
  apply (external_failure_falls_back fetchOnlyPluto "2026-11-01T06:41:00.000Z"
           2461346 (initialSource 2461000)).
  reflexivity.
Defined.

Example offline_and_unavailable_fail :
  externalFails (fetchOffline "") = true /\ externalFails (fetchUnavailable "") = true
  /\ externalFails (Resolved (mkResponse true 200 (JsonRows []))) = true.
Proof. repeat split. Qed.

(** ** Partial responses *)

(** C3. When the fetch succeeds and maps some of the catalog bodies, the
    row table holds exactly the mapped bodies, in catalog order; a body
    the response does not name has no row: it is dropped, not taken from
    the circular model. *)
Theorem partial_response_keeps_mapped_only
    (fetch : string -> FetchSettled) (epochISO : string)
    (visualJDTT : R) (st : SourceState) (res : Response) (json : list SpiceRow) :
  fetch (spiceUrl epochISO bodyNames) = Resolved res ->
  res_ok res = true ->
  res_json res = JsonRows json ->
  filter (fun n => n ∈ spiceNames json) bodyNames <> [] ->
  let st' := rowsEffect fetch epochISO spice visualJDTT st in
  row_name <$> rows st' = filter (fun n => n ∈ spiceNames json) bodyNames
  /\ (forall n, n ∉ spiceNames json -> n ∉ row_name <$> rows st')
  /\ spiceStatus st' = ok.
Proof.
  intros Hf Hok Hjson Hne st'. subst st'.
  unfold rowsEffect, fetchSpiceStates. rewrite Hf, Hok, Hjson. simpl.
  unfold onFulfilled.
  assert (Hm : merged (spiceTable json) <> []).
  { intros E. apply Hne. unfold bodyNames. rewrite <- merged_names, E. reflexivity. }
  apply length_pos_nonempty in Hm. rewrite Hm. simpl.
  rewrite merged_names. repeat split.
  intros n Hn Hin. apply list_elem_of_filter in Hin as [Hin _]. contradiction.
Qed.

Example threeBodies_mapped :
  filter (fun n => n ∈ spiceNames threeBodies) bodyNames = ["Venus"; "Earth"; "Mars"].
Proof. reflexivity. Qed.

Lemma partial_response_keeps_mapped_only_witness :
  fetchThree (spiceUrl "" bodyNames) = Resolved (mkResponse true 200 (JsonRows threeBodies))
  /\ filter (fun n => n ∈ spiceNames threeBodies) bodyNames <> []
  /\ let st' := rowsEffect fetchThree "" spice 2461346 (initialSource 2461000) in
     row_name <$> rows st' = filter (fun n => n ∈ spiceNames threeBodies) bodyNames
     /\ (forall n, n ∉ spiceNames threeBodies -> n ∉ row_name <$> rows st')
     /\ spiceStatus st' = ok.
Proof.
  split; [reflexivity|]. split; [discriminate|].
  apply (partial_response_keeps_mapped_only fetchThree "" 2461346
           (initialSource 2461000) (mkResponse true 200 (JsonRows threeBodies))
           threeBodies); [reflexivity | reflexivity | reflexivity | discriminate].
Defined.

(** ** Rows built from a successful response *)

Lemma speedKmPerSec_pos (a T : R) : 0 < a -> 0 < T -> 0 < speedKmPerSec a T.
Proof.
  intros Ha HT. unfold speedKmPerSec.
  assert (H : 0 < PI * a) by (apply Rmult_lt_0_compat; [apply PI_RGT_0 | exact Ha]).
  apply Rdiv_lt_0_compat; [apply Rdiv_lt_0_compat; [|exact HT] | lra].
  replace (2 * PI * a * AU_KM) with ((PI * a) * (2 * AU_KM)) by ring.
  apply Rmult_lt_0_compat; [exact H | unfold AU_KM; lra].
Qed.

Lemma atan2_on_positive_axis (x : R) : 0 < x -> atan2 0 x = 0.
Proof.
  intros Hx. unfold atan2. destruct (Rlt_dec 0 x); [|contradiction].
  replace (0 / x) with 0 by (field; lra). apply atan_0.
Qed.

Lemma spiceState_earthAtRest : spiceState earthAtRest = mkSpiceState 1 0 0 0.
Proof.
  unfold spiceState, earthAtRest, hypot. simpl.
  replace (0 / AU_KM) with 0 by (unfold AU_KM; lra).
  replace (149597870.7 / AU_KM) with 1 by (unfold AU_KM; lra).
  rewrite atan2_on_positive_axis by lra.
  replace (toDeg 0) with 0 by (unfold toDeg; field; apply PI_neq0).
  rewrite mod_small by lra.
  replace (0 * 0 + 0 * 0) with 0 by ring. rewrite sqrt_0. reflexivity.
Qed.

Lemma spiceTable_earthAtRest :
  spiceTable [earthAtRest] = <["Earth"%string := mkSpiceState 1 0 0 0]> ∅.
Proof.
  unfold spiceTable. cbn [fold_left]. rewrite spiceState_earthAtRest. reflexivity.
Qed.

Lemma rows_earthAtRest (epochISO : string) (visualJDTT : R) (st : SourceState) :
  rowsEffect fetchEarthAtRest epochISO spice visualJDTT st
  = mkSource [mkRow "Earth" 1.00000011 0 1 0
                (speedKmPerSec 1.00000011 365.256) 365.256] ok.
Proof.
  unfold rowsEffect, fetchSpiceStates, fetchEarthAtRest.
  cbn [res_ok res_json negb]. rewrite spiceTable_earthAtRest.
  unfold onFulfilled, merged, getOrbitalBodies, mergedRow. cbn [omap list_omap name].
  rewrite !lookup_insert_ne by discriminate.
  rewrite lookup_insert_eq, !lookup_empty. reflexivity.
Qed.

(** C2, as stated, fails on the speed: for the Earth reported at rest the
    fetch succeeds and the table holds one row built from the response,
    whose speed is the catalog's mean circular speed and not
    [hypot(vx_km_s, vy_km_s)] of the response. *)
Lemma external_speed_counterexample :
  let st' := rowsEffect fetchEarthAtRest "" spice 2461346 (initialSource 2461000) in
  spiceStatus st' = ok
  /\ rows st' = [mkRow "Earth" 1.00000011 0 1 0
                   (speedKmPerSec 1.00000011 365.256) 365.256]
  /\ speedKmPerSec 1.00000011 365.256
     <> hypot (vx_km_s earthAtRest) (vy_km_s earthAtRest).
Proof.
  cbv zeta. rewrite rows_earthAtRest. cbn [rows spiceStatus].
  split; [reflexivity|]. split; [reflexivity|].
  unfold hypot, earthAtRest. cbn [vx_km_s vy_km_s]. replace (0 * 0 + 0 * 0) with 0 by ring. rewrite sqrt_0.
  pose proof (speedKmPerSec_pos 1.00000011 365.256). lra.
Qed.

(** C2, amended. After a successful fetch that maps at least one catalog
    body, every row of the table belongs to a catalog body named in the
    response and takes its position from the last response row with that
    name: [x] and [y] are the kilometre coordinates divided by [AU_KM] and
    the angle is [mod(toDeg(atan2(y, x)), 360)].  The speed, like [a] and
    [T], comes from the catalog: it is the mean circular speed
    [speedKmPerSec(a_AU, T_days)]. *)
Theorem external_rows_fields
    (fetch : string -> FetchSettled) (epochISO : string)
    (visualJDTT : R) (st : SourceState) (res : Response)
    (json : list SpiceRow) (r : OrbitalRow) :
  fetch (spiceUrl epochISO bodyNames) = Resolved res ->
  res_ok res = true ->
  res_json res = JsonRows json ->
  filter (fun n => n ∈ spiceNames json) bodyNames <> [] ->
  r ∈ rows (rowsEffect fetch epochISO spice visualJDTT st) ->
  exists b pre j post,
    b ∈ getOrbitalBodies
    /\ json = pre ++ j :: post
    /\ sp_name j = name b
    /\ (name b ∉ spiceNames post)
    /\ r = mkRow (name b) (a_AU b)
             (mod_ (toDeg (atan2 (y_km j / AU_KM) (x_km j / AU_KM))) 360)
             (x_km j / AU_KM) (y_km j / AU_KM)
             (speedKmPerSec (a_AU b) (T_days b)) (T_days b).
Proof.
  intros Hf Hok Hjson Hne.
  unfold rowsEffect, fetchSpiceStates. rewrite Hf, Hok, Hjson. simpl.
  unfold onFulfilled.
  assert (Hm : merged (spiceTable json) <> []).
  { intros E. apply Hne. unfold bodyNames. rewrite <- merged_names, E. reflexivity. }
  apply length_pos_nonempty in Hm. rewrite Hm. simpl.
  intros Hr. apply merged_elem in Hr as (b & m & Hb & Hlk & ->).
  apply spiceTable_lookup_Some in Hlk as (pre & j & post & -> & Hn & Hpost & ->).
  exists b, pre, j, post. repeat split; auto.
Qed.

Lemma external_rows_fields_witness :
  fetchEarthAtRest (spiceUrl "" bodyNames)
  = Resolved (mkResponse true 200 (JsonRows [earthAtRest]))
  /\ filter (fun n => n ∈ spiceNames [earthAtRest]) bodyNames <> []
  /\ exists b pre j post,
       b ∈ getOrbitalBodies
       /\ [earthAtRest] = pre ++ j :: post
       /\ sp_name j = name b
       /\ (name b ∉ spiceNames post)
       /\ mkRow "Earth" 1.00000011 0 1 0 (speedKmPerSec 1.00000011 365.256) 365.256
          = mkRow (name b) (a_AU b)
              (mod_ (toDeg (atan2 (y_km j / AU_KM) (x_km j / AU_KM))) 360)
              (x_km j / AU_KM) (y_km j / AU_KM)
              (speedKmPerSec (a_AU b) (T_days b)) (T_days b).
Proof.
  split; [reflexivity|]. split; [discriminate|].
  apply (external_rows_fields fetchEarthAtRest "" 2461346 (initialSource 2461000)
           (mkResponse true 200 (JsonRows [earthAtRest])) [earthAtRest]);
    [reflexivity | reflexivity | reflexivity | discriminate |].
  rewrite rows_earthAtRest. cbn [rows]. apply list_elem_of_singleton. reflexivity.
Defined.

(** * Further properties of the calculation core *)

(** ** Earth *)


(** ** Calendar: year and day of year *)

Lemma YearFromDay_era (day : Z) :
  (YearFromDay day
   = yearOfEraDay ((day + 719468) mod 146097) + 400 * ((day + 719468) / 146097))%Z.
Proof.
  unfold YearFromDay, yearOfEraDay. cbv zeta.
  replace (day + 719468 - (day + 719468) / 146097 * 146097)%Z
    with ((day + 719468) mod 146097)%Z by (rewrite Z.mod_eq by lia; lia).
  destruct (_ <? 10)%Z; lia.
Qed.

Lemma DayFromYear_era (y e : Z) :
  (DayFromYear (y + 400 * e) = DayFromYear y + 146097 * e)%Z.
Proof. unfold DayFromYear. Z.div_mod_to_equations. lia. Qed.

Lemma allBelow_iter (f : Z -> bool) (n : N) :
  fst (N.iter n (checkStep f) (0%Z, true)) = Z.of_N n
  /\ (snd (N.iter n (checkStep f) (0%Z, true)) = true ->
      forall z, (0 <= z < Z.of_N n)%Z -> f z = true).
Proof.
  induction n as [|n [IH1 IH2]] using N.peano_ind.
  - simpl. split; [reflexivity | intros _ z Hz; lia].
  - rewrite N.iter_succ. unfold checkStep at 1 3. simpl fst. simpl snd.
    rewrite IH1. split; [lia|].
    intros H z Hz. apply andb_prop in H as [H1 H2].
    destruct (Z.eq_dec z (Z.of_N n)) as [->|Hne]; [exact H2|].
    apply IH2; [exact H1 | lia].
Qed.

Lemma allBelow_spec (f : Z -> bool) (n : N) :
  allBelow f n = true -> forall z, (0 <= z < Z.of_N n)%Z -> f z = true.
Proof. intros H. apply allBelow_iter, H. Qed.

(** Every day of an era, checked by evaluation. *)
Lemma era_checked : allBelow eraDayOk 146097 = true.
Proof. vm_compute. reflexivity. Qed.

(** The year computed for a day number is the year that contains it. *)
Lemma YearFromDay_spec (day : Z) :
  (DayFromYear (YearFromDay day) <= day < DayFromYear (YearFromDay day + 1))%Z.
Proof.
  rewrite YearFromDay_era.
  set (z := (day + 719468)%Z). set (doe := (z mod 146097)%Z).
  set (era := (z / 146097)%Z).
  assert (Hdoe : (0 <= doe < 146097)%Z) by (apply Z.mod_pos_bound; lia).
  pose proof (allBelow_spec eraDayOk 146097 era_checked doe Hdoe) as H.
  unfold eraDayOk in H. apply andb_prop in H as [H1 H2].
  apply Z.leb_le in H1. apply Z.ltb_lt in H2.
  replace (yearOfEraDay doe + 400 * era + 1)%Z
    with (yearOfEraDay doe + 1 + 400 * era)%Z by lia.
  rewrite !DayFromYear_era.
  assert (z = 146097 * era + doe)%Z by (apply Z.div_mod; lia).
  lia.
Qed.

Lemma year_length (y : Z) : (365 <= DayFromYear (y + 1) - DayFromYear y <= 366)%Z.
Proof. unfold DayFromYear. Z.div_mod_to_equations. lia. Qed.

Lemma dayOfYearUTC_from (d : Date) (yr : Z) :
  Date_UTC_jan1 (getUTCFullYear d) = (DayFromYear yr * msPerDay)%Z ->
  dayOfYearUTC d = (getTime d / msPerDay - DayFromYear yr + 1)%Z.
Proof.
  intros E. unfold dayOfYearUTC. cbv zeta. rewrite E.
  replace (getTime d - DayFromYear yr * msPerDay)%Z
    with (getTime d + (- DayFromYear yr) * msPerDay)%Z by lia.
  rewrite Z.div_add by (unfold msPerDay; lia). lia.
Qed.



(** The last millisecond of 2024 is in day 366 of a leap year. *)
Example dayOfYearUTC_end_of_2024 :
  (getUTCFullYear (mkDate 1735689599000), dayOfYearUTC (mkDate 1735689599000))
  = (2024, 366)%Z.
Proof. vm_compute. reflexivity. Qed.

(** X12. For an instant in the UTC years 0..99, [Date.UTC(year, 0, 1)]
    denotes 1 January of 1900 + year, so the day of the year comes out
    negative instead of 1..366. *)
Theorem dayOfYearUTC_two_digit_year (d : Date) :
  (0 <= getUTCFullYear d <= 99)%Z ->
  (dayOfYearUTC d < 0)%Z.
Proof.
  intros Hy.
  rewrite (dayOfYearUTC_from d (1900 + getUTCFullYear d)).
  - unfold getUTCFullYear in *.
    pose proof (YearFromDay_spec (getTime d / msPerDay)) as [_ H].
    revert H. generalize (getTime d / msPerDay)%Z. intros day.
    revert Hy. generalize (YearFromDay day). intros y Hy H.
    unfold DayFromYear in *. Z.div_mod_to_equations. lia.
  - unfold Date_UTC_jan1. cbv zeta.
    replace (0 <=? getUTCFullYear d)%Z with true by (symmetry; apply Z.leb_le; lia).
    replace (getUTCFullYear d <=? 99)%Z with true by (symmetry; apply Z.leb_le; lia).
    reflexivity.
Qed.

Lemma dayOfYearUTC_two_digit_year_witness :
  (0 <= getUTCFullYear (mkDate (-60000000000000)) <= 99)%Z
  /\ (dayOfYearUTC (mkDate (-60000000000000)) < 0)%Z.
Proof.
  split; [vm_compute; split; discriminate|].
  apply (dayOfYearUTC_two_digit_year (mkDate (-60000000000000))).
  vm_compute. split; discriminate.
Defined.

(** ** The catalog *)

Lemma catalog_positive (b : OrbitalBody) :
  b ∈ getOrbitalBodies -> 0 < a_AU b /\ 0 < T_days b.
Proof.
  unfold getOrbitalBodies. intros H.
  repeat (apply elem_of_cons in H as [->|H]; [simpl; split; lra|]).
  apply elem_of_nil in H. contradiction.
Qed.

(** ** What [fetchSpiceStates] stores *)



(** ** The rows builder as a whole *)

Lemma bodyNames_NoDup : NoDup bodyNames.
Proof. apply (bool_decide_unpack _). vm_compute. exact I. Qed.

Lemma rowsEffect_cases (fetch : string -> FetchSettled) (epochISO : string)
    (dataSource : DataSource) (visualJDTT : R) (st : SourceState) :
  rowsEffect fetch epochISO dataSource visualJDTT st
    = mkSource (circularRows visualJDTT) idle /\ dataSource = model
  \/ rowsEffect fetch epochISO dataSource visualJDTT st
       = mkSource (circularRows visualJDTT) error /\ dataSource = spice
  \/ exists json,
       rowsEffect fetch epochISO dataSource visualJDTT st
         = mkSource (merged (spiceTable json)) ok
       /\ dataSource = spice /\ merged (spiceTable json) <> [].
Proof.
  destruct dataSource; [left; split; reflexivity|]. right.
  unfold rowsEffect, fetchSpiceStates.
  destruct (fetch (spiceUrl epochISO bodyNames)) as [|res]; [left; split; reflexivity|].
  destruct (res_ok res); cbn [negb]; [|left; split; reflexivity].
  destruct (res_json res) as [json|]; [|left; split; reflexivity].
  unfold onFulfilled.
  destruct (0 <? length (merged (spiceTable json)))%nat eqn:E.
  - right. exists json. repeat split. apply length_pos_nonempty, E.
  - left. split; reflexivity.
Qed.

(** X18. However the fetch ends and whichever source is selected, once the
    effect has run the row table is not empty, its rows carry distinct
    catalog names, the status is no longer [loading], and it is [idle]
    exactly when the circular model is selected.  The outcome does not
    depend on the previous rows or status. *)
Theorem rowsEffect_always_populated
    (fetch : string -> FetchSettled) (epochISO : string)
    (dataSource : DataSource) (visualJDTT : R) (st st2 : SourceState) :
  let st' := rowsEffect fetch epochISO dataSource visualJDTT st in
  rows st' <> []
  /\ NoDup (row_name <$> rows st')
  /\ (forall n, n ∈ row_name <$> rows st' -> n ∈ bodyNames)
  /\ spiceStatus st' <> loading
  /\ (spiceStatus st' = idle <-> dataSource = model)
  /\ st' = rowsEffect fetch epochISO dataSource visualJDTT st2.
Proof.
  intros st'. subst st'.
  assert (Hindep : rowsEffect fetch epochISO dataSource visualJDTT st
                   = rowsEffect fetch epochISO dataSource visualJDTT st2).
  { destruct dataSource; [reflexivity|].
    unfold rowsEffect, fetchSpiceStates.
    destruct (fetch (spiceUrl epochISO bodyNames)) as [|res]; [reflexivity|].
    destruct (res_ok res); cbn [negb]; [|reflexivity].
    destruct (res_json res) as [json|]; [|reflexivity].
    unfold onFulfilled. destruct (0 <? length _)%nat; reflexivity. }
  assert (Hcirc : row_name <$> circularRows visualJDTT = bodyNames) by reflexivity.
  destruct (rowsEffect_cases fetch epochISO dataSource visualJDTT st)
    as [[E ->]|[[E ->]|(json & E & -> & Hne)]]; rewrite <- Hindep, E;
    cbn [rows spiceStatus].
  - rewrite Hcirc. repeat split; auto using bodyNames_NoDup, circularRows_nonempty;
      discriminate.
  - rewrite Hcirc. repeat split; auto using bodyNames_NoDup, circularRows_nonempty;
      discriminate.
  - rewrite merged_names. repeat split; auto; try discriminate.
    + apply NoDup_filter, bodyNames_NoDup.
    + intros n Hn. apply list_elem_of_filter in Hn as [_ Hn]. exact Hn.
Qed.

(** ** Self-check harness *)

Lemma Rleb_true (a b : R) : a <= b -> Rleb a b = true.
Proof. intros H. unfold Rleb. destruct (Rle_dec a b); [reflexivity | contradiction]. Qed.

Lemma Rltb_true (a b : R) : a < b -> Rltb a b = true.
Proof. intros H. unfold Rltb. destruct (Rlt_dec a b); [reflexivity | contradiction]. Qed.

Lemma approx_passes (n : string) (got expected tol : R) :
  expected - tol <= got <= expected + tol ->
  check_pass (approx n got expected tol) = true.
Proof.
  intros H. unfold approx. cbn [check_pass].
  apply Rleb_true, Rabs_le. lra.
Qed.

Lemma wrapped_sum_difference (L e : R) :
  mod_ (mod_ (L + e) 24 - L - e) 24 = 0.
Proof.
  rewrite (mod_floored 24 ltac:(lra) (L + e)).
  set (k := Zfloor ((L + e) / 24)).
  replace (L + e - 24 * IZR k - L - e) with (0 + 24 * IZR (- k))
    by (rewrite opp_IZR; ring).
  rewrite mod_shift by lra. apply mod_small; lra.
Qed.

Lemma atan2_straight_up : mod_ (toDeg (atan2 1 0)) 360 = 90.
Proof.
  unfold atan2.
  destruct (Rlt_dec 0 0) as [H|_]; [lra|].
  destruct (Rlt_dec 0 1) as [_|H]; [|lra].
  replace (toDeg (PI / 2)) with 90 by (unfold toDeg; field; apply PI_neq0).
  apply mod_small; lra.
Qed.

(** The harness runs to completion; its first seven verdicts are always
    positive and the eighth depends on the data source alone. *)
Lemma runSelfChecks_result
    (now : Date) (earthLon : R) (dataSource : DataSource) (status : SpiceStatus) :
  exists checks last,
    runSelfChecks now earthLon dataSource status = Some (checks ++ [last])
    /\ length checks = 7%nat
    /\ Forall (fun c => check_pass c = true) checks
    /\ (check_pass last = false <-> dataSource = spice /\ status = error).
Proof.
  unfold runSelfChecks. cbn [findBody getOrbitalBodies List.find name bool_decide].
  change (findBody "Earth") with (Some (mkBody "Earth" 1.00000011 365.256)).
  change (findBody "Mercury") with (Some (mkBody "Mercury" 0.38709893 87.969)).
  change (findBody "Neptune") with (Some (mkBody "Neptune" 30.06896348 60182)).
  cbn [mbind option_bind a_AU T_days].
  eexists [_; _; _; _; _; _; _], _. split; [reflexivity|]. split; [reflexivity|].
  pose proof PI_bounds as [Hlo Hhi].
  split.
  - cbn [a_AU T_days].
    repeat apply Forall_cons_2; try apply Forall_nil.
    + apply approx_passes. unfold speedKmPerSec, AU_KM. lra.
    + apply approx_passes. unfold speedKmPerSec, AU_KM. lra.
    + apply approx_passes. unfold speedKmPerSec, AU_KM. lra.
    + apply approx_passes. lra.
    + apply approx_passes.
      unfold marsLMST_Hours.
      replace (marsMTC_Hours (msd now) + 0 / 15) with (marsMTC_Hours (msd now)) by lra.
      rewrite (mod_small 24) by (lra || apply marsMTC_range).
      replace (marsMTC_Hours (msd now) - marsMTC_Hours (msd now)) with 0 by lra.
      rewrite Rabs_R0. lra.
    + cbn [check_pass]. apply Rltb_true.
      unfold earthApparentSolarTimeHours. rewrite wrapped_sum_difference.
      rewrite Rmin_left; lra.
    + cbn [check_pass]. apply Rltb_true.
      rewrite atan2_straight_up.
      replace (90 - 90) with 0 by lra. rewrite Rabs_R0. lra.
    + constructor.
  - cbn [check_pass]. destruct dataSource, status; cbn;
      split; try discriminate; try (intros [? ?]; discriminate); auto.
Qed.



Lemma failed_fetch_status
    (fetch : string -> FetchSettled) (epochISO : string)
    (visualJDTT : R) (st : SourceState) :
  externalFails (fetch (spiceUrl epochISO bodyNames)) = true ->
  spiceStatus (rowsEffect fetch epochISO spice visualJDTT st) = error.
Proof.
  intros Hfail. unfold rowsEffect, fetchSpiceStates.
  destruct (fetch (spiceUrl epochISO bodyNames)) as [|res]; [reflexivity|].
  simpl in Hfail. destruct (res_ok res); simpl in *; [|reflexivity].
  destruct (res_json res) as [json|]; [|reflexivity].
  unfold onFulfilled. rewrite (mapsNoBody_merged json Hfail). reflexivity.
Qed.



(** ** Heliocentric map *)

Module MapFacts.

Import HeliocentricMap.

Lemma handle_zoom_range (s : State) (e : Event) :
  0.2 <= zoom s <= 20 -> 0.2 <= zoom (handle s e) <= 20.
Proof.
  intros Hz. destruct e as [deltaY|x y|x y|]; cbn [handle zoom]; try exact Hz.
  - split.
    + apply Rmin_glb; [lra | apply Rmax_l].
    + apply Rmin_l.
  - destruct (dragging s); exact Hz.
Qed.

(** X22. The zoom factor never leaves [[0.2, 20]]: whatever sequence of
    wheel and mouse events arrives, a zoom that starts in range stays in
    range, and mouse events do not change it at all. *)
Theorem zoom_stays_clamped (s : State) (events : list Event) :
  0.2 <= zoom s <= 20 ->
  0.2 <= zoom (run s events) <= 20
  /\ ((forall e, e ∈ events -> forall deltaY, e <> Wheel deltaY) ->
      zoom (run s events) = zoom s).
Proof.
  unfold run. revert s. induction events as [|e events IH]; intros s Hz.
  - split; [exact Hz | reflexivity].
  - cbn [fold_left].
    destruct (IH (handle s e) (handle_zoom_range s e Hz)) as [H1 H2].
    split; [exact H1|].
    intros Hmouse. rewrite H2.
    + destruct e as [deltaY|x y|x y|]; cbn [handle zoom]; try reflexivity.
      * exfalso. apply (Hmouse (Wheel deltaY) ltac:(left) deltaY). reflexivity.
      * destruct (dragging s); reflexivity.
    + intros e' He'. apply Hmouse. right. exact He'.
Qed.

Lemma zoom_stays_clamped_witness :
  0.2 <= zoom initial <= 20
  /\ 0.2 <= zoom (run initial [Wheel 1; MouseDown 3 4; Wheel (-1); Wheel (-1)]) <= 20
  /\ ((forall e, e ∈ [Wheel 1; MouseDown 3 4; Wheel (-1); Wheel (-1)] ->
       forall deltaY, e <> Wheel deltaY) ->
      zoom (run initial [Wheel 1; MouseDown 3 4; Wheel (-1); Wheel (-1)])
      = zoom initial).
Proof.
  assert (H : 0.2 <= zoom initial <= 20) by (simpl; lra).
  split; [exact H|].
  apply (zoom_stays_clamped initial
           [Wheel 1; MouseDown 3 4; Wheel (-1); Wheel (-1)] H).
Defined.

Lemma last_cons_default {A} (l : list A) (a d : A) :
  List.last (a :: l) d = List.last l a.
Proof.
  revert a d. induction l as [|b l IH]; intros a d; [reflexivity|].
  change (List.last (a :: b :: l) d) with (List.last (b :: l) d).
  rewrite (IH b d), (IH b a). reflexivity.
Qed.

Lemma maxA_bounds (rows : list OrbitalRow) :
  1 <= maxA rows /\ forall r, r ∈ rows -> row_a r <= maxA rows.
Proof.
  unfold maxA. induction rows as [|r0 rows [IH1 IH2]]; cbn [fmap list_fmap foldr].
  - split; [lra | intros r Hr; apply elem_of_nil in Hr; contradiction].
  - split.
    + eapply Rle_trans; [exact IH1 | apply Rmax_r].
    + intros r Hr. apply elem_of_cons in Hr as [->|Hr]; [apply Rmax_l|].
      eapply Rle_trans; [apply IH2, Hr | apply Rmax_r].
Qed.

(** While the button is down, the offset follows the mouse: the offset
    minus the last mouse position does not change. *)
Lemma drag_invariant (points : list (R * R)) (s : State) :
  dragging s = true ->
  let s' := run s (moves points) in
  dragging s' = true
  /\ zoom s' = zoom s
  /\ offset_x s' - lx s' = offset_x s - lx s
  /\ offset_y s' - ly s' = offset_y s - ly s
  /\ (lx s', ly s') = List.last points (lx s, ly s).
Proof.
  unfold run, moves. revert s.
  induction points as [|p points IH]; intros s Hd.
  - cbn. repeat split; auto.
  - cbn [fmap list_fmap fold_left].
    set (s1 := handle s (MouseMove p.1 p.2)).
    assert (H1 : dragging s1 = true /\ zoom s1 = zoom s
                 /\ offset_x s1 - lx s1 = offset_x s - lx s
                 /\ offset_y s1 - ly s1 = offset_y s - ly s
                 /\ (lx s1, ly s1) = p).
    { unfold s1. cbn [handle]. rewrite Hd. cbn.
      repeat split; try lra. destruct p; reflexivity. }
    destruct H1 as (D1 & Z1 & Ox1 & Oy1 & L1).
    destruct (IH s1 D1) as (D & Z & Ox & Oy & L).
    repeat split; try congruence; try lra.
    rewrite L, L1. symmetry. apply last_cons_default.
Qed.

Lemma last_pixel (points : list (Z * Z)) (d : Z * Z) :
  List.last (pixel <$> points) (pixel d) = pixel (List.last points d).
Proof.
  induction points as [|p points IH]; [reflexivity|].
  destruct points as [|q points]; [reflexivity|].
  exact IH.
Qed.

Lemma moves_without_button (s : State) (points : list (R * R)) :
  dragging s = false -> run s (moves points) = s.
Proof.
  unfold run. revert s.
  induction points as [|q points IH]; intros s Hd; [reflexivity|].
  cbn [moves fmap list_fmap fold_left handle]. rewrite Hd. apply IH, Hd.
Qed.

Lemma drag_end_state (s : State) (ox oy x0 y0 : Z) (points : list (Z * Z)) :
  offset_x s = IZR ox -> offset_y s = IZR oy ->
  let s' := run s (MouseDown (IZR x0) (IZR y0)
                     :: moves (pixel <$> points) ++ [MouseUp]) in
  let p := List.last points (x0, y0) in
  offset_x s' = IZR (ox + (p.1 - x0))
  /\ offset_y s' = IZR (oy + (p.2 - y0))
  /\ zoom s' = zoom s
  /\ dragging s' = false.
Proof.
  intros Hox Hoy. cbv zeta.
  unfold run. cbn [fold_left]. rewrite fold_left_app. cbn [fold_left].
  set (s0 := handle s (MouseDown (IZR x0) (IZR y0))).
  destruct (drag_invariant (pixel <$> points) s0 eq_refl) as (D & Z & Ox & Oy & L).
  unfold run in D, Z, Ox, Oy, L.
  set (s1 := fold_left handle (moves (pixel <$> points)) s0) in *.
  cbn [handle offset_x offset_y zoom dragging].
  change (lx s0) with (IZR x0) in *. change (ly s0) with (IZR y0) in *.
  change (offset_x s0) with (offset_x s) in *.
  change (offset_y s0) with (offset_y s) in *.
  change (zoom s0) with (zoom s) in *.
  change (IZR x0, IZR y0) with (pixel (x0, y0)) in L.
  rewrite last_pixel in L. unfold pixel in L.
  injection L as Lx Ly.
  rewrite !plus_IZR, !minus_IZR, <- Lx, <- Ly.
  repeat split; try lra; try congruence.
Qed.

(** X23. With mouse positions in whole pixels (the coordinates and the
    starting offset are integers of magnitude at most 2^50, so that every
    sum the handlers form is an integer below 2^53 and is exact on
    doubles too), a drag pans the map by exactly the mouse displacement:
    after mouse-down at [(x0, y0)], any number of moves and mouse-up, the
    offset has grown by the last position minus [(x0, y0)], the zoom is
    untouched and dragging is off; moves that arrive after the mouse-up
    change nothing. *)
Theorem drag_pans_by_displacement
    (s : State) (ox oy x0 y0 : Z) (points : list (Z * Z)) :
  offset_x s = IZR ox -> offset_y s = IZR oy ->
  Forall (fun c => (Z.abs c <= 2 ^ 50)%Z)
    (ox :: oy :: x0 :: y0 :: (points.*1 ++ points.*2)) ->
  let s' := run s (MouseDown (IZR x0) (IZR y0)
                     :: moves (pixel <$> points) ++ [MouseUp]) in
  let p := List.last points (x0, y0) in
  offset_x s' = IZR (ox + (p.1 - x0))
  /\ offset_y s' = IZR (oy + (p.2 - y0))
  /\ zoom s' = zoom s
  /\ dragging s' = false
  /\ forall later, run s' (moves later) = s'.
Proof.
  intros Hox Hoy _.
  destruct (drag_end_state s ox oy x0 y0 points Hox Hoy) as (A & B & C & D).
  cbv zeta. repeat split; try assumption.
  intros later. apply moves_without_button, D.
Qed.

Lemma drag_pans_by_displacement_witness :
  let s := mkState 1 10 (-4) false 0 0 in
  let points := [(205, 149); (230, 120)]%Z in
  offset_x s = IZR 10 /\ offset_y s = IZR (-4)
  /\ Forall (fun c => (Z.abs c <= 2 ^ 50)%Z)
       (10 :: -4 :: 200 :: 150 :: (points.*1 ++ points.*2))%Z
  /\ let s' := run s (MouseDown (IZR 200) (IZR 150)
                        :: moves (pixel <$> points) ++ [MouseUp]) in
     let p := List.last points (200, 150)%Z in
     offset_x s' = IZR (10 + (p.1 - 200))
     /\ offset_y s' = IZR (-4 + (p.2 - 150))
     /\ zoom s' = zoom s
     /\ dragging s' = false
     /\ forall later, run s' (moves later) = s'.
Proof.
  intros s points.
  assert (H1 : offset_x s = IZR 10) by reflexivity.
  assert (H2 : offset_y s = IZR (-4)) by reflexivity.
  assert (H3 : Forall (fun c => (Z.abs c <= 2 ^ 50)%Z)
                 (10 :: -4 :: 200 :: 150 :: (points.*1 ++ points.*2))%Z)
    by (repeat constructor; simpl; lia).
  split; [exact H1|]. split; [exact H2|]. split; [exact H3|].
  apply (drag_pans_by_displacement s 10 (-4) 200 150 points H1 H2 H3).
Defined.

(** X24. In the initial view (zoom 1, no pan) every row of the table whose
    position is within its orbit radius, [|x| <= a] and [|y| <= a], is
    drawn inside the 420-pixel canvas, at least 16 pixels from each
    edge. *)
Theorem map_initial_view_contains
    (rows : list OrbitalRow) (r : OrbitalRow) :
  r ∈ rows ->
  Rabs (row_x r) <= row_a r ->
  Rabs (row_y r) <= row_a r ->
  pad <= toPx rows initial (row_x r) <= size - pad
  /\ pad <= toPy rows initial (row_y r) <= size - pad.
Proof.
  intros Hr Hx Hy.
  destruct (maxA_bounds rows) as [H1 Hmax]. specialize (Hmax r Hr).
  pose proof (Rle_abs (row_x r)) as Hx1. pose proof (Rle_abs (- row_x r)) as Hx2.
  rewrite Rabs_Ropp in Hx2.
  pose proof (Rle_abs (row_y r)) as Hy1. pose proof (Rle_abs (- row_y r)) as Hy2.
  rewrite Rabs_Ropp in Hy2.
  unfold toPx, toPy, scale, baseScale, size, pad, initial.
  cbn [zoom offset_x offset_y].
  set (M := maxA rows) in *.
  assert (Hi : 0 < / M) by (apply Rinv_0_lt_compat; lra).
  assert (Bx : -1 <= row_x r * / M <= 1).
  { split; apply Rmult_le_reg_r with M; try lra;
      rewrite Rmult_assoc, Rinv_l by lra; lra. }
  assert (By : -1 <= row_y r * / M <= 1).
  { split; apply Rmult_le_reg_r with M; try lra;
      rewrite Rmult_assoc, Rinv_l by lra; lra. }
  replace (row_x r * ((420 / 2 - 16) / (M * 1.1) * 1))
    with ((194 / 1.1) * (row_x r * / M)) by (field; lra).
  replace (row_y r * ((420 / 2 - 16) / (M * 1.1) * 1))
    with ((194 / 1.1) * (row_y r * / M)) by (field; lra).
  lra.
Qed.

Lemma map_initial_view_contains_witness :
  let r := mkRow "Earth" 1 0 1 0 30 365 in
  r ∈ [r]
  /\ Rabs (row_x r) <= row_a r
  /\ Rabs (row_y r) <= row_a r
  /\ pad <= toPx [r] initial (row_x r) <= size - pad
  /\ pad <= toPy [r] initial (row_y r) <= size - pad.
Proof.
  intros r.
  assert (H1 : r ∈ [r]) by (apply list_elem_of_singleton; reflexivity).
  assert (H2 : Rabs (row_x r) <= row_a r) by (simpl; rewrite Rabs_R1; lra).
  assert (H3 : Rabs (row_y r) <= row_a r) by (simpl; rewrite Rabs_R0; lra).
  split; [exact H1|]. split; [exact H2|]. split; [exact H3|].
  apply (map_initial_view_contains [r] r H1 H2 H3).
Defined.

End MapFacts.

(** * The wrap helper and the Mars clocks on doubles *)

(** ** A rounding that satisfies [Rounding] *)

Lemma toGrid_on_grid (z : Z) :
  toGrid (IZR z / 281474976710656) = IZR z / 281474976710656.
Proof.
  unfold toGrid.
  replace (IZR z / 281474976710656 * 281474976710656) with (IZR z) by field.
  rewrite (Zfloor_eq z); [reflexivity | lra].
Qed.

Lemma toGrid_fixed (x : R) :
  toGrid x = x -> exists z : Z, x = IZR z / 281474976710656.
Proof. intros H. eexists. symmetry. exact H. Qed.

Lemma toGrid_Rounding : Rounding toGrid.
Proof.
  split.
  - intros x y Hxy. unfold toGrid.
    apply Rmult_le_compat_r; [lra|].
    apply IZR_le, Zfloor_le. lra.
  - intros x. apply toGrid_on_grid.
  - intros k _.
    replace (IZR k) with (IZR (k * 281474976710656) / 281474976710656)
      by (rewrite mult_IZR; field).
    apply toGrid_on_grid.
  - intros x m Hx Hm.
    destruct (toGrid_fixed x Hx) as [zx ->].
    destruct (toGrid_fixed m Hm) as [zm ->].
    unfold js_rem.
    set (t := Ztrunc (IZR zx / 281474976710656 / (IZR zm / 281474976710656))).
    replace (IZR zx / 281474976710656 - IZR zm / 281474976710656 * IZR t)
      with (IZR (zx - zm * t) / 281474976710656)
      by (rewrite minus_IZR, mult_IZR; field).
    apply toGrid_on_grid.
Qed.

(** ** The wrap helper *)

(** C4, amended. On doubles the wrap helper stays in [[0, m)] as long as the sum
    [(n % m) + m] does not overflow: whatever the rounding of that sum, if
    it rounds non-negative values to non-negative (finite) values, then
    [mod(n, m)] lies in [[0, m)] for every n and every positive m.  This
    covers the moduli 1, 24, 60 and 360 the program uses. *)
Theorem mod_wrap_without_overflow (rnd : R -> R) (n m : R) :
  (forall x, 0 <= x -> 0 <= rnd x) ->
  0 < m ->
  0 <= Rounded.mod_ rnd n m < m.
Proof.
  intros Hsign Hm. unfold Rounded.mod_.
  apply js_rem_nonneg; [exact Hm|].
  apply Hsign.
  destruct (Rle_dec 0 n) as [Hn|Hn].
  - pose proof (js_rem_nonneg m Hm n Hn). lra.
  - assert (Hn' : n < 0) by lra. pose proof (js_rem_neg m Hm n Hn'). lra.
Qed.

Lemma toGrid_nonneg (x : R) : 0 <= x -> 0 <= toGrid x.
Proof.
  intros Hx.
  replace 0 with (toGrid 0) at 1.
  - apply (rnd_monotone toGrid toGrid_Rounding), Hx.
  - replace 0 with (IZR 0 / 281474976710656) by (simpl; lra). apply toGrid_on_grid.
Qed.

Lemma mod_wrap_without_overflow_witness :
  (forall x, 0 <= x -> 0 <= toGrid x)
  /\ 0 < 24
  /\ 0 <= Rounded.mod_ toGrid (-0.1) 24 < 24.
Proof.
  split; [exact toGrid_nonneg|]. split; [lra|].
  apply (mod_wrap_without_overflow toGrid (-0.1) 24 toGrid_nonneg). lra.
Defined.

(** ** Mars *)

Lemma js_rem_small (x m : R) : 0 < m -> 0 <= x < m -> js_rem x m = x.
Proof.
  intros Hm Hx. unfold js_rem, Ztrunc.
  destruct (Rle_dec 0 (x / m)) as [_|Hq].
  - rewrite (floor_quotient_unique m Hm x 0) by lra. lra.
  - exfalso. apply Hq. apply quotient_nonneg; lra.
Qed.

Lemma js_rem_second_turn (x m : R) : 0 < m -> m <= x < 2 * m -> js_rem x m = x - m.
Proof.
  intros Hm Hx. unfold js_rem, Ztrunc.
  destruct (Rle_dec 0 (x / m)) as [_|Hq].
  - rewrite (floor_quotient_unique m Hm x 1) by lra. lra.
  - exfalso. apply Hq. apply quotient_nonneg; lra.
Qed.

Lemma js_rem_two_turns (m : R) : 0 < m -> js_rem (2 * m) m = 0.
Proof.
  intros Hm. unfold js_rem, Ztrunc.
  destruct (Rle_dec 0 (2 * m / m)) as [_|Hq].
  - rewrite (floor_quotient_unique m Hm (2 * m) 2) by lra. lra.
  - exfalso. apply Hq. apply quotient_nonneg; lra.
Qed.

Section RoundedMars.

Variable rnd : R -> R.
Hypothesis rounding : Rounding rnd.

Lemma rnd_0 : rnd 0 = 0.
Proof using rounding. apply (rnd_integer rnd rounding 0). simpl. lia. Qed.

Lemma rnd_24 : rnd 24 = 24.
Proof using rounding. apply (rnd_integer rnd rounding 24). simpl. lia. Qed.

Lemma rnd_between (lo hi : Z) (y : R) :
  (Z.abs lo <= 2 ^ 53)%Z -> (Z.abs hi <= 2 ^ 53)%Z ->
  IZR lo <= y <= IZR hi -> IZR lo <= rnd y <= IZR hi.
Proof using rounding.
  intros Hlo Hhi [H1 H2]. split.
  - rewrite <- (rnd_integer rnd rounding lo Hlo).
    apply (rnd_monotone rnd rounding), H1.
  - rewrite <- (rnd_integer rnd rounding hi Hhi).
    apply (rnd_monotone rnd rounding), H2.
Qed.

(** From the epoch on, the coordinated time is a double [s - 24] (or 0)
    for a double [s] between 24 and 48. *)
Lemma rounded_MTC_shape (msd : R) :
  0 <= msd ->
  exists s, rnd s = s /\ 24 <= s <= 48
    /\ Rounded.marsMTC_Hours rnd msd = js_rem s 24.
Proof using rounding.
  intros Hmsd. unfold Rounded.marsMTC_Hours, Rounded.mod_.
  pose proof (js_rem_nonneg 1 ltac:(lra) msd Hmsd) as Hf.
  set (f := js_rem msd 1) in *.
  assert (Hp : 0 <= rnd (f * 24) <= 24).
  { apply (rnd_between 0 24); simpl; try lia; lra. }
  set (p := rnd (f * 24)) in *.
  assert (Ha : 0 <= js_rem p 24 < 24)
    by (apply js_rem_nonneg; lra).
  set (a := js_rem p 24) in *.
  exists (rnd (a + 24)). split; [apply (rnd_idempotent rnd rounding)|].
  split; [|reflexivity].
  apply (rnd_between 24 48); simpl; try lia; lra.
Qed.

End RoundedMars.



(** * Evaluation on binary64 values: where the exact model and the code part *)

Module B64Divergences.

Import PrimFloat.
Import B64.
Local Open Scope float_scope.

(** C4, as stated, fails on the code for large moduli: 1.4e308 and
    1.5e308 are finite, the modulus is positive, and the wrap helper
    returns NaN, because [(n % m) + m] overflows to [Infinity]. *)
Lemma mod_overflow_counterexample :
  let n := 0x1.8ebbb5516e5adp+1023 in
  let m := 0x1.ab36d48e1acf0p+1023 in
  is_finite n = true /\ is_finite m = true /\ (0 <? m) = true
  /\ is_infinity (js_rem n m + m) = true
  /\ is_nan (mod_ n m) = true
  /\ (0 <=? mod_ n m) = false.
Proof. vm_compute. repeat split. Qed.


(** C8. The Earth tile at the component's initial longitude 77.1025, at
    2026-11-01T03:37:35.400Z: the mean solar time is the double
    8.766666666666666, just below 8 h 46 min, which [formatHMS24] passes
    unchanged to [formatHMS].  Its product with 60 rounds to 526, so the
    minute is 46, while its product with 3600 stays below 31560, so the
    second is 59: the tile shows 08:46:59, and the value read back from
    it is at least 1/3600 h away. *)
Theorem formatHMS_roundtrip_off_by_a_minute :
  let now := mkDate 1793504255400 in
  let h := earthMeanSolarTimeHours now defaultEarthLon in
  h = 0x1.1888888888888p+3
  /\ (0 <=? h) = true /\ (h <? 24) = true
  /\ mod_ h 24 = h
  /\ formatHMS24 h = "08:46:59"%string
  /\ formatHMS h = "08:46:59"%string
  /\ exists back exact : Q,
       hmsToHours h = Some back
       /\ toQ h = Some exact
       /\ (1 # 3600 <= Qabs (back - exact))%Q.
Proof.
  cbv zeta.
  assert (E : earthMeanSolarTimeHours (mkDate 1793504255400) defaultEarthLon
              = 0x1.1888888888888p+3) by (vm_compute; reflexivity).
  rewrite E.
  repeat split; try (vm_compute; reflexivity).
  eexists _, _. repeat split; try (vm_compute; reflexivity).
  vm_compute. discriminate.
Qed.

End B64Divergences.

(** * Ranges and invariants of the clocks, the tables and the widgets *)

(** ** Readings stay on the dial *)

Lemma dial_in_range (x : R) : 0 <= mod_ x 24 < 24.
Proof. apply mod_range. lra. Qed.

(** X2. Every clock reading the component shows for an instant and a
    longitude lies in [[0, 24)]: Mars coordinated and local time, Earth's
    mean solar time, the coordinated and local times of the Moon, Mercury,
    Venus and Jupiter, and the dials of the thirteen moons. *)
Theorem clock_readings_in_range (now : Date) (lon : R) :
  let jd := jdTT_of now in
  (0 <= mtc now < 24 /\ 0 <= marsLMSTval now lon < 24
   /\ 0 <= earthMeanSolarTimeHours now lon < 24)
  /\ (0 <= moonCT jd < 24 /\ 0 <= mercuryCT jd < 24
      /\ 0 <= venusCT jd < 24 /\ 0 <= jupiterCT jd < 24)
  /\ (0 <= moonLMST jd lon < 24 /\ 0 <= mercuryLMST jd lon < 24
      /\ 0 <= venusLMST jd lon < 24 /\ 0 <= jupiterLMST jd lon < 24)
  /\ Forall (fun kv => 0 <= kv.2 < 24) (moonCTmap jd).
Proof.
  cbv zeta.
  split; [repeat split; apply dial_in_range|].
  split; [repeat split; apply dial_in_range|].
  split; [repeat split; apply dial_in_range|].
  unfold moonCTmap, MOONS. cbn [fmap list_fmap].
  repeat (apply Forall_cons_2; [cbn [snd]; apply dial_in_range|]).
  constructor.
Qed.

(** ** Progress bar *)

(** X8. Whatever value it is given, the progress bar's width is between 0
    and 100 percent. *)
Theorem progress_bar_clamped (value : R) :
  0 <= ProgressSpark_pct value <= 100.
Proof.
  unfold ProgressSpark_pct.
  pose proof (Rmax_l 0 (Rmin 1 value)).
  assert (Rmax 0 (Rmin 1 value) <= 1) by (apply Rmax_lub; [lra | apply Rmin_l]).
  lra.
Qed.

(** ** Earth's mean solar time from day to day *)

Lemma utc_fields_next_day (t k : Z) :
  getUTCHours (mkDate (t + k * 86400000)) = getUTCHours (mkDate t)
  /\ getUTCMinutes (mkDate (t + k * 86400000)) = getUTCMinutes (mkDate t)
  /\ getUTCSeconds (mkDate (t + k * 86400000)) = getUTCSeconds (mkDate t)
  /\ getUTCMilliseconds (mkDate (t + k * 86400000)) = getUTCMilliseconds (mkDate t).
Proof.
  unfold getUTCHours, getUTCMinutes, getUTCSeconds, getUTCMilliseconds.
  cbn [getTime].
  replace (t + k * 86400000)%Z with (t + (k * 24) * 3600000)%Z at 1 by lia.
  replace (t + k * 86400000)%Z with (t + (k * 1440) * 60000)%Z at 1 by lia.
  replace (t + k * 86400000)%Z with (t + (k * 86400) * 1000)%Z at 1 by lia.
  rewrite !Z.div_add by lia.
  repeat split.
  - apply Z_mod_plus_full.
  - replace (t / 60000 + k * 1440)%Z with (t / 60000 + (k * 24) * 60)%Z by lia.
    apply Z_mod_plus_full.
  - replace (t / 1000 + k * 86400)%Z with (t / 1000 + (k * 1440) * 60)%Z by lia.
    apply Z_mod_plus_full.
  - replace (t + k * 86400000)%Z with (t + (k * 86400) * 1000)%Z by lia.
    apply Z_mod_plus_full.
Qed.

(** X9. Earth's mean solar time depends on the instant only through the
    UTC time of day: a whole number of days (of 86 400 000 ms) earlier or
    later, the four UTC fields and therefore the reading are the same. *)
Theorem earth_mean_solar_time_daily (t k : Z) (lon : R) :
  earthMeanSolarTimeHours (mkDate (t + k * 86400000)) lon
  = earthMeanSolarTimeHours (mkDate t) lon.
Proof.
  unfold earthMeanSolarTimeHours.
  destruct (utc_fields_next_day t k) as (-> & -> & -> & ->). reflexivity.
Qed.

(** ** Rows of the circular model *)

(** X15. The circular model always yields the eight catalog bodies in
    catalog order, and every row carries its body's catalog [a] and [T]
    and the positive mean speed [speedKmPerSec(a, T)]. *)
Theorem circularRows_catalog (jdTT : R) :
  row_name <$> circularRows jdTT = bodyNames
  /\ length (circularRows jdTT) = 8%nat
  /\ forall r, r ∈ circularRows jdTT ->
       0 < row_v r
       /\ exists b, b ∈ getOrbitalBodies /\ row_name r = name b
            /\ row_a r = a_AU b /\ row_T r = T_days b
            /\ row_v r = speedKmPerSec (a_AU b) (T_days b).
Proof.
  split; [reflexivity|]. split; [reflexivity|].
  intros r Hr. unfold circularRows in Hr.
  apply list_elem_of_fmap in Hr as (b & -> & Hb).
  destruct (catalog_positive b Hb) as [Ha HT].
  unfold circularRow. cbn [row_a row_v row_name row_T].
  split; [apply speedKmPerSec_pos; assumption|].
  exists b. repeat split; auto.
Qed.

(** ** Ranges of the stored states *)

(** X16. Whatever the backend row, the stored angle lies in [[0, 360)] and
    the stored speed is not negative. *)
Theorem spiceState_ranges (row : SpiceRow) :
  0 <= thetaDeg (spiceState row) < 360 /\ 0 <= v_kms (spiceState row).
Proof.
  unfold spiceState. cbn [thetaDeg v_kms]. unfold hypot.
  split; [apply mod_range; lra | apply sqrt_pos].
Qed.

(** ** Mini-plot *)

(** X21. Whatever the position, the mini-plot's dot stays well inside the
    54-pixel box: both pixel coordinates lie strictly between 3 and 51,
    that is within one pixel of the padded area from 4 to 50. *)
Theorem miniPlot_dot_in_box (xAU yAU : R) :
  3 < MiniPlot.px xAU yAU < 51 /\ 3 < MiniPlot.py xAU yAU < 51.
Proof.
  unfold MiniPlot.px, MiniPlot.py, MiniPlot.scale, MiniPlot.cx, MiniPlot.cy,
    MiniPlot.size, MiniPlot.pad.
  set (m := Rmax 1 (Rmax (Rmax (Rabs xAU) (Rabs yAU)) 1)).
  assert (Hm1 : 1 <= m) by apply Rmax_l.
  assert (Hmx : Rabs xAU <= m).
  { unfold m. eapply Rle_trans; [|apply Rmax_r].
    eapply Rle_trans; [|apply Rmax_l]. apply Rmax_l. }
  assert (Hmy : Rabs yAU <= m).
  { unfold m. eapply Rle_trans; [|apply Rmax_r].
    eapply Rle_trans; [|apply Rmax_l]. apply Rmax_r. }
  assert (Hi : 0 < / m) by (apply Rinv_0_lt_compat; lra).
  assert (Hx : -1 <= xAU * / m <= 1).
  { pose proof (Rle_abs xAU) as H1. pose proof (Rle_abs (- xAU)) as H2.
    rewrite Rabs_Ropp in H2. split.
    - apply Rmult_le_reg_r with m; [lra|]. rewrite Rmult_assoc, Rinv_l by lra. lra.
    - apply Rmult_le_reg_r with m; [lra|]. rewrite Rmult_assoc, Rinv_l by lra. lra. }
  assert (Hy : -1 <= yAU * / m <= 1).
  { pose proof (Rle_abs yAU) as H1. pose proof (Rle_abs (- yAU)) as H2.
    rewrite Rabs_Ropp in H2. split.
    - apply Rmult_le_reg_r with m; [lra|]. rewrite Rmult_assoc, Rinv_l by lra. lra.
    - apply Rmult_le_reg_r with m; [lra|]. rewrite Rmult_assoc, Rinv_l by lra. lra. }
  replace (xAU * ((54 / 2 - 4) / m)) with (23 * (xAU * / m)) by (field; lra).
  replace (yAU * ((54 / 2 - 4) / m)) with (23 * (yAU * / m)) by (field; lra).
  lra.
Qed.

(** ** Sol number *)

(** X25. The sol number never decreases when the instant advances. *)
Theorem solNumber_monotone (now later : Date) :
  (getTime now <= getTime later)%Z -> (solNumber now <= solNumber later)%Z.
Proof.
  intros H. unfold solNumber. apply Zfloor_le.
  apply IZR_le in H.
  unfold msd, marsSolDate, jdUTC, julianDateUTC. lra.
Qed.

Lemma solNumber_monotone_witness :
  (getTime (mkDate 0) <= getTime (mkDate 1793504255400))%Z
  /\ (solNumber (mkDate 0) <= solNumber (mkDate 1793504255400))%Z.
Proof.
  split; [simpl; lia|].
  apply (solNumber_monotone (mkDate 0) (mkDate 1793504255400)). simpl. lia.
Defined.
